(* ===== verification/_CoqProject ===== *)
-Q . S2P
Prelude.v
GoFmt.v
Mem.v
Pointers.v
Growslice.v
Slices.v
SortSlice.v
SlicesDemo.v
Types.v
Main.v
