(* ===== verification/Prelude.v ===== *)
(** * A verification development for the go-documentation demo program

    The repository (module [go-documentation]) is a small Go program
    whose [main] (src/main.go) calls a sequence of demonstration functions
    of package [basics] and finally launches one goroutine.  Four source
    files are present:

    - src/main.go: the package variables [globalVariable] and
      [GlobalVariable], [understandVariables] and the driver [main];
    - src/basics/pointers.go: [UnderstandPointers] and [passByValue]
      (a pointer to a local [int] passed by value, written through);
    - src/basics/slices.go: [UnderstandSlices] (three [append]s onto a
      nil slice, [sort.Slice] with a closure comparing [numbers[i] <
      numbers[j]], a slice literal and two re-slicings);
    - src/basics/types.go: the struct [User] and its field tags.

    [main] also calls functions whose files are not in the repository
    snapshot ([basics.UnderstandFunctionReturnSingleValue],
    [UnderstandFunctionReturnMultipleValues], [UnderstandMap],
    [UnderstandDecisionStructures], [UnderstandLoops],
    [basics.GlobalVariable] and [concurrency.UnderstandGoroutines]); the
    development takes them as parameters with a contract ([Main.demo_ok]:
    they return normally, keep the heap well formed and only add output).

    ** How the program is modelled

    Everything the demos do goes through the Go runtime: the heap that
    holds escaping variables and slice backing arrays, [append]'s growth,
    the bounds checks of indexing and slicing, [fmt]/[log] formatting,
    [sort.Slice], struct-tag lookup.  Each of these is written out as the
    Go runtime and standard library do it, and the demo functions are
    translated statement by statement on top of them, in the monad [M] of
    [Mem.v] (state passing with a panic outcome).

    - [Prelude.v] (this file): the [go_scope], 64-bit integer helpers
      ([wrap64], [to_uint64], [in_int64]), the hint databases [go] and
      [go_rw], the tactics [go_bool] and [go_case], list and string lemmas.
    - [GoFmt.v]: values as [fmt] prints them ([gval]), [fmtInteger] of
      fmt/format.go in base 10 and base 16 (its digit loops, on fuel 64),
      [%v] and [Sprintln].  Theorems: the decimal round trip for every
      [int64] and the [%v] round trip of pointers.
    - [Mem.v]: [GoState] (a heap of [int] cells as [gmap Z Z], the bump
      allocator's next address, the trace of [fmt.Println]/[log.Println]
      events), the monad [M] with [Ok]/[Panic] outcomes and its notation,
      Go's runtime errors, [alloc], [load], [store] (nil checks), the heap
      invariant [wf] and its preservation, the symbolic-execution tactic
      [go_run].
    - [Pointers.v]: [UnderstandPointers] and [passByValue].
    - [Growslice.v]: the class [GrowPolicy] (what [append] needs of the
      runtime's capacity choice) and its instance [go_grow]: [nextslicecap]
      and [roundupsize] of runtime/slice.go and runtime/msize.go.
    - [Slices.v]: slice headers, [len]/[cap], indexing with its bounds
      panic, re-slicing [s[lo:hi]] with its two panics, slice literals,
      [append] of one element ([growslice] and [memmove]), all against any
      [GrowPolicy] in a section.
    - [SortSlice.v]: [sort.Slice] through the [lessSwap] record of Go's
      sort package, [reflectlite.Swapper] for [[]int], [pdqsort_func]'s
      short-slice path [insertionSort_func]; a pure insertion sort as the
      reference, proved equal to stdpp's [merge_sort]; the refinement of
      the monadic sort against any [Less]/[Swap] meeting [LessSwapSpec].
    - [SlicesDemo.v]: [UnderstandSlices].
    - [Types.v]: [User], its zero value, its tags, [reflect.StructTag.Lookup]
      with [strconv.Unquote], [encoding/json]'s [parseTag] and
      [tagOptions.Contains].
    - [Main.v]: [understandVariables], the sequential part of [main], and
      the process after the [go] statement as a step relation.

    ** What the theorems show

    - Whole functions: [UnderstandPointers], [UnderstandSlices],
      [understandVariables] and [main] up to its [go] statement return
      normally from every well-formed state and print exactly the lines of
      the source, in order (log lines without [log]'s timestamp prefix).
    - Runtime: [append] keeps the elements and adds one, writes in place
      (visible through every alias of the array) when there is capacity
      and moves to a fresh array (invisible to old aliases) when there is
      not; [nextslicecap] always returns a capacity between the request
      and [int]'s maximum; index and slice expressions panic exactly out
      of bounds; a slice literal holds its elements.
    - Sorting: [insertionSort_func] refines the reference insertion sort
      for every [lessSwap] meeting its contract; [sort.Slice] on the
      program's closure returns the sorted permutation.
    - Formatting and tags: decimal and pointer printing round-trip through
      parsers; [StructTag.Lookup] terminates within its fuel and
      round-trips on well-formed tags; on every tag with the unclosed
      quote of types.go lines 8-9 it finds the first key's value and no
      other key, so the [bson] names are never seen.
    - Concurrency: the process can exit after any prefix of the
      goroutine's steps, none included, and in no other state: [main]
      does not wait for the goroutine.

    ** Bounds and fuel
    Integer formatting loops run on fuel 64, enough for every [uint64]
    (64 binary digits; fewer in base 10 and 16).  The growth loop of
    [nextslicecap] runs on fuel 4: it only runs when the request is at
    most twice the old capacity, and each round multiplies the capacity by
    at least 5/4 ([nextslicecap_total]); both of its [int] additions wrap
    as in Go, and the proof shows the inner one, [newcap + 3*threshold],
    never does in those rounds (the old capacity is at most [int_max/2]).
    [roundupsize] wraps its [uintptr] sum modulo 2^64 as Go does.
    [StructTag_Lookup] runs one more iteration than the tag has bytes;
    each iteration consumes at least one ([lookup_loop_fuel]).  [int] is
    64-bit: [wrap64] and [to_uint64] write out Go's wrap-around where
    [append] compares lengths as [uint].

    ** Not modelled
    The timestamp prefix [log] writes before each line (it reads the
    clock); the concrete addresses Go's allocator hands out (addresses here
    are those of a bump allocator; the printed format is Go's);
    [pdqsort_func]'s path for more than 12 elements (a parameter; the
    program sorts 3); [time.Time] beyond its zero value; the numeric
    escapes of [strconv.Unquote]; the functions missing from the snapshot
    (parameters); the scheduler beyond the interleaving of the main
    goroutine's return with the spawned goroutine's steps. *)

From Stdlib Require Export ZArith Lia String Ascii.
From stdpp Require Export base list gmap strings sorting numbers.

Declare Scope go_scope.
Delimit Scope go_scope with go.
Open Scope Z_scope.

Create HintDb go discriminated.
Create Rewrite HintDb go_rw.

(** ** Go's [int] and [uint64]: 64-bit two's complement. *)

Definition int_min : Z := - 2 ^ 63.
Definition int_max : Z := 2 ^ 63 - 1.
Definition uint_max : Z := 2 ^ 64 - 1.

(** Conversion of an unbounded result to Go's [int]: wrap-around. *)
Definition wrap64 (z : Z) : Z := (z + 2 ^ 63) mod 2 ^ 64 - 2 ^ 63.

(** Conversion [uint64(z)] of a Go [int]. *)
Definition to_uint64 (z : Z) : Z := z mod 2 ^ 64.

Definition in_int64 (z : Z) : bool := (int_min <=? z) && (z <=? int_max).

Lemma in_int64_spec z : in_int64 z = true <-> int_min <= z <= int_max.
Proof. unfold in_int64. rewrite andb_true_iff, !Z.leb_le. tauto. Qed.

Lemma wrap64_id z : int_min <= z <= int_max -> wrap64 z = z.
Proof.
  unfold wrap64, int_min, int_max. intros H.
  rewrite Z.mod_small; lia.
Qed.

Lemma wrap64_range z : int_min <= wrap64 z <= int_max.
Proof.
  unfold wrap64, int_min, int_max.
  pose proof (Z.mod_pos_bound (z + 2 ^ 63) (2 ^ 64)). lia.
Qed.

Lemma to_uint64_id z : 0 <= z <= uint_max -> to_uint64 z = z.
Proof. unfold to_uint64, uint_max. intros. rewrite Z.mod_small; lia. Qed.

Lemma wrap64_high z : int_max < z <= int_max + 2 ^ 64 -> wrap64 z = z - 2 ^ 64.
Proof.
  unfold wrap64, int_max. intros H.
  rewrite <- (Z.mod_add (z + 2 ^ 63) (-1)) by lia.
  rewrite Z.mod_small; lia.
Qed.

#[export] Hint Resolve wrap64_range : go.

(** ** Tactics shared by the development. *)

(** Turn the boolean comparisons the models branch on into propositions. *)
Ltac go_bool :=
  repeat match goal with
  | H : (_ <? _) = true |- _ => apply Z.ltb_lt in H
  | H : (_ <? _) = false |- _ => apply Z.ltb_ge in H
  | H : (_ <=? _) = true |- _ => apply Z.leb_le in H
  | H : (_ <=? _) = false |- _ => apply Z.leb_gt in H
  | H : (_ =? _) = true |- _ => apply Z.eqb_eq in H
  | H : (_ =? _) = false |- _ => apply Z.eqb_neq in H
  | H : (_ && _) = true |- _ => apply andb_true_iff in H as [? ?]
  end.

(** Case on the first boolean comparison of the goal and simplify. *)
Ltac go_case :=
  match goal with
  | |- context [if ?b then _ else _] =>
      let E := fresh "E" in destruct b eqn:E; go_bool
  end.

(** ** Generic list lemmas. *)

Lemma lookup_seqZ_total (a n i : Z) :
  0 <= i < n -> seqZ a n !! Z.to_nat i = Some (a + i).
Proof. intros H. apply lookup_seqZ. lia. Qed.

Lemma list_lookup_app_r_eq {A} (l : list A) x :
  (l ++ [x]) !! length l = Some x.
Proof. rewrite lookup_app_r by lia. by rewrite Nat.sub_diag. Qed.

#[export] Hint Resolve list_lookup_app_r_eq : go.

(** ** Strings *)

Lemma string_app_assoc (a b c : string) :
  String.append (String.append a b) c = String.append a (String.append b c).
Proof. induction a as [|ch a IH]; [reflexivity|]. exact (f_equal (String ch) IH). Qed.

Lemma string_app_nil_r (a : string) : String.append a EmptyString = a.
Proof. induction a as [|ch a IH]; [reflexivity|]. exact (f_equal (String ch) IH). Qed.

#[export] Hint Rewrite string_app_assoc string_app_nil_r : go_rw.
