(* ===== verification/GoFmt.v ===== *)
(** * GoFmt: what [fmt.Println] and [log.Println] print

    The program prints strings, [int]/[int64] values, a [bool], [[]int]
    slices and [*int] pointers with the [%v] verb.  This file models the
    part of Go's fmt package that does it: [fmtInteger] of fmt/format.go
    (the right-to-left digit loop, base 10 and base 16, the [-] sign and
    the [0x] prefix of [fmt0x64]), [printArg]/[printValue] for these
    kinds, and [doPrintln] (operands separated by one space, a final
    newline).  The theorems are the round trips of the integer formatter
    against digit parsers, which also show that the fuel of the loops is
    enough for every 64-bit value. *)

From S2P Require Import Prelude.

Local Open Scope string_scope.
Local Open Scope Z_scope.

(** ** Digits *)

(** [ldigits] of fmt/format.go. *)
Definition ldigits : string := "0123456789abcdefx".

(** [digits[u]] *)
Definition digit_at (d : Z) : ascii :=
  match String.get (Z.to_nat d) ldigits with Some c => c | None => "?"%char end.

(** [byte('0' + d)] *)
Definition byte_0_plus (d : Z) : ascii := ascii_of_nat (48 + Z.to_nat d).

(** Value of a digit character in base [b]; the inverse used by the round
    trips (what [strconv.ParseInt] accepts for bases up to 16). *)
Definition digit_value (c : ascii) : option Z :=
  let n := Z.of_nat (nat_of_ascii c) in
  if (48 <=? n) && (n <=? 57) then Some (n - 48)
  else if (97 <=? n) && (n <=? 102) then Some (n - 87) else None.

Definition digit_val (b : Z) (c : ascii) : option Z :=
  match digit_value c with Some v => if v <? b then Some v else None | None => None end.

(** ** The digit loops of [fmtInteger]

    [buf] holds what has already been written to the right of index [i];
    one iteration prepends one digit.  [fuel] bounds the iterations. *)

(** [case 10: for u >= 10 { i--; next := u / 10; buf[i] = byte('0' + u - next*10); u = next }]
    followed by [i--; buf[i] = digits[u]]. *)
Fixpoint fmt_loop10 (fuel : nat) (u : Z) (buf : string) : string :=
  match fuel with
  | O => String (digit_at u) buf
  | S f =>
      if 10 <=? u then
        let next := u / 10 in
        fmt_loop10 f next (String (byte_0_plus (u - next * 10)) buf)
      else String (digit_at u) buf
  end.

(** [case 16: for u >= 16 { i--; buf[i] = digits[u&0xF]; u >>= 4 }]
    followed by [i--; buf[i] = digits[u]]. *)
Fixpoint fmt_loop16 (fuel : nat) (u : Z) (buf : string) : string :=
  match fuel with
  | O => String (digit_at u) buf
  | S f =>
      if 16 <=? u then
        fmt_loop16 f (Z.shiftr u 4) (String (digit_at (Z.land u 15)) buf)
      else String (digit_at u) buf
  end.

(** 64 iterations: every [uint64] has at most 64 digits in any base. *)
Definition fmt_fuel : nat := 64.

(** [fmtInteger(u, 10, signed, 'v', ldigits)] for an [int]/[int64]. *)
Definition fmtInteger_signed10 (v : Z) : string :=
  let u := to_uint64 v in
  let negative := v <? 0 in
  let u := if negative then to_uint64 (- u) else u in
  let s := fmt_loop10 fmt_fuel u "" in
  if negative then String "-" s else s.

(** [fmt0x64(u, true)]: [fmtInteger(u, 16, unsigned, 'v', ldigits)] with
    [f.sharp] set, which prepends [digits[16]] (['x']) and ['0']. *)
Definition fmt0x64 (u : Z) : string :=
  String "0" (String (digit_at 16) (fmt_loop16 fmt_fuel (to_uint64 u) "")).

(** ** Values and [%v] *)

(** The dynamic values the program passes to the print functions. *)
Inductive gval :=
| GString (s : string)
| GInt (v : Z)
| GBool (b : bool)
| GIntSlice (xs : list Z)
| GPtr (addr : Z).

(** [printArg(arg, 'v')] for each kind; a pointer goes through
    [fmtPointer]: [<nil>] for address 0, [0x...] otherwise. *)
Definition fmt_v (v : gval) : string :=
  match v with
  | GString s => s
  | GInt z => fmtInteger_signed10 z
  | GBool b => if b then "true" else "false"
  | GIntSlice xs =>
      "[" ++ String.concat " " (map fmtInteger_signed10 xs) ++ "]"
  | GPtr a => if a =? 0 then "<nil>" else fmt0x64 a
  end.

(** [doPrintln]: a space before every operand but the first, then a
    newline. *)
Definition Sprintln (args : list gval) : string :=
  String.concat " " (map fmt_v args) ++ String "010"%char "".

(** ** Parsers used to state the round trips *)

Fixpoint parse_digits (b acc : Z) (s : string) : option Z :=
  match s with
  | EmptyString => Some acc
  | String c s' =>
      match digit_val b c with
      | Some d => parse_digits b (acc * b + d) s'
      | None => None
      end
  end.

Definition parse_uint (b : Z) (s : string) : option Z :=
  match s with EmptyString => None | _ => parse_digits b 0 s end.

(** Decimal [int] as [strconv.Atoi] reads it. *)
Definition parse_int (s : string) : option Z :=
  match s with
  | String c s' =>
      if Ascii.eqb c "-" then option_map Z.opp (parse_uint 10 s')
      else parse_uint 10 s
  | EmptyString => None
  end.

(** A pointer as printed by [%v]. *)
Definition parse_ptr (s : string) : option Z :=
  match s with
  | String c1 (String c2 s') =>
      if Ascii.eqb c1 "0" && Ascii.eqb c2 "x" then parse_uint 16 s' else None
  | _ => None
  end.

(** ** Digit lemmas *)

Lemma digit_val_digit_at b d :
  2 <= b <= 16 -> 0 <= d < b -> digit_val b (digit_at d) = Some d.
Proof.
  intros Hb Hd. unfold digit_val.
  assert (Hv : digit_value (digit_at d) = Some d).
  { assert (Hd' : exists n, d = Z.of_nat n /\ (n < 16)%nat)
      by (exists (Z.to_nat d); lia).
    destruct Hd' as [n [-> Hn]].
    do 16 (destruct n as [|n]; [reflexivity|]). lia. }
  rewrite Hv. go_case; [reflexivity | lia].
Qed.

Lemma byte_0_plus_digit_at d : 0 <= d < 10 -> byte_0_plus d = digit_at d.
Proof.
  intros Hd.
  assert (Hd' : exists n, d = Z.of_nat n /\ (n < 10)%nat)
    by (exists (Z.to_nat d); lia).
  destruct Hd' as [n [-> Hn]].
  do 10 (destruct n as [|n]; [reflexivity|]). lia.
Qed.

Lemma parse_digits_cons b acc c s :
  parse_digits b acc (String c s) =
  match digit_val b c with
  | Some d => parse_digits b (acc * b + d) s
  | None => None
  end.
Proof. reflexivity. Qed.

#[export] Hint Rewrite parse_digits_cons : go_rw.

(** ** The Go loops are the textbook digit loop *)

(** Right-to-left digit loop in base [b] with [mod] and [div]. *)
Fixpoint fmt_loop_gen (b : Z) (fuel : nat) (u : Z) (buf : string) : string :=
  match fuel with
  | O => String (digit_at u) buf
  | S f =>
      if b <=? u then fmt_loop_gen b f (u / b) (String (digit_at (u mod b)) buf)
      else String (digit_at u) buf
  end.

Lemma fmt_loop10_gen f u buf : fmt_loop10 f u buf = fmt_loop_gen 10 f u buf.
Proof.
  revert u buf; induction f as [|f IH]; intros u buf; [reflexivity|].
  simpl. go_case; [|reflexivity].
  rewrite IH, byte_0_plus_digit_at.
  - by rewrite <- Zmod_eq_full by lia.
  - rewrite <- Zmod_eq_full by lia. apply Z.mod_pos_bound. lia.
Qed.

Lemma fmt_loop16_gen f u buf :
  0 <= u -> fmt_loop16 f u buf = fmt_loop_gen 16 f u buf.
Proof.
  revert u buf; induction f as [|f IH]; intros u buf Hu; [reflexivity|].
  simpl. go_case; [|reflexivity].
  rewrite Z.shiftr_div_pow2 by lia.
  change 15 with (Z.ones 4). rewrite Z.land_ones by lia.
  apply IH. apply Z.div_pos; lia.
Qed.

Lemma fmt_loop_gen_nonempty b f u buf :
  exists c s, fmt_loop_gen b f u buf = String c s.
Proof.
  revert u buf; induction f as [|f IH]; intros u buf; simpl; [eauto|].
  destruct (b <=? u); eauto.
Qed.

(** Reading back what the loop prepended continues the number being read. *)
Lemma parse_digits_fmt_loop_gen b f u buf :
  2 <= b <= 16 -> 0 <= u < b ^ Z.of_nat (S f) ->
  parse_digits b 0 (fmt_loop_gen b f u buf) = parse_digits b u buf.
Proof.
  intros Hb. revert u buf; induction f as [|f IH]; intros u buf Hu.
  - simpl. rewrite digit_val_digit_at by (simpl in Hu; lia). reflexivity.
  - simpl. go_case.
    + rewrite IH.
      * simpl. rewrite digit_val_digit_at by (try apply Z.mod_pos_bound; lia).
        by rewrite Z.mul_comm, <- Z.div_mod by lia.
      * split; [apply Z.div_pos; lia|].
        apply Z.div_lt_upper_bound; [lia|].
        rewrite Nat2Z.inj_succ, Z.pow_succ_r in Hu by lia. lia.
    + simpl. rewrite digit_val_digit_at by lia. reflexivity.
Qed.

Lemma parse_uint_fmt_loop_gen b f u :
  2 <= b <= 16 -> 0 <= u < b ^ Z.of_nat (S f) ->
  parse_uint b (fmt_loop_gen b f u "") = Some u.
Proof.
  intros Hb Hu. destruct (fmt_loop_gen_nonempty b f u "") as (c & s & Hcs).
  unfold parse_uint. rewrite Hcs, <- Hcs.
  by rewrite parse_digits_fmt_loop_gen.
Qed.

(** Every [uint64] fits in [fmt_fuel + 1] digits of any base [b >= 2]. *)
Lemma uint64_fits_fuel b u :
  2 <= b -> 0 <= u <= uint_max -> 0 <= u < b ^ Z.of_nat (S fmt_fuel).
Proof.
  intros Hb Hu. unfold uint_max in Hu. split; [lia|].
  assert (2 ^ 65 <= b ^ 65) by (apply Z.pow_le_mono_l; lia).
  change (Z.of_nat (S fmt_fuel)) with 65. lia.
Qed.

Lemma parse_int_of_uint s u :
  parse_uint 10 s = Some u -> parse_int s = Some u.
Proof.
  destruct s as [|c s]; [discriminate|]. simpl.
  destruct (Ascii.eqb c "-") eqn:E; [|done].
  apply Ascii.eqb_eq in E as ->. discriminate.
Qed.

Lemma to_uint64_neg v :
  int_min <= v < 0 -> to_uint64 (- to_uint64 v) = - v.
Proof.
  unfold to_uint64, int_min. intros Hv.
  assert (H1 : v mod 2 ^ 64 = v + 2 ^ 64)
    by (rewrite <- (Z.mod_add v 1) by lia; apply Z.mod_small; lia).
  rewrite H1. replace (- (v + 2 ^ 64)) with (- v + (-1) * 2 ^ 64) by ring.
  rewrite Z.mod_add by lia. apply Z.mod_small; lia.
Qed.

(** ** Round trips *)

Lemma fmt_loop10_roundtrip u :
  0 <= u <= uint_max -> parse_uint 10 (fmt_loop10 fmt_fuel u "") = Some u.
Proof.
  intros Hu. rewrite fmt_loop10_gen.
  apply parse_uint_fmt_loop_gen; [lia | by apply uint64_fits_fuel].
Qed.

Lemma fmt_loop16_roundtrip u :
  0 <= u <= uint_max -> parse_uint 16 (fmt_loop16 fmt_fuel u "") = Some u.
Proof.
  intros Hu. rewrite fmt_loop16_gen by lia.
  apply parse_uint_fmt_loop_gen; [lia | by apply uint64_fits_fuel].
Qed.

Lemma parse_int_neg s : parse_int (String "-" s) = option_map Z.opp (parse_uint 10 s).
Proof. reflexivity. Qed.

Lemma parse_ptr_0x s : parse_ptr (String "0" (String "x" s)) = parse_uint 16 s.
Proof. reflexivity. Qed.

(** C19: [fmtInteger] prints every Go [int] as a decimal numeral that reads
    back as the same number: the digit loop is right, the sign is right
    (also for [math.MinInt64], whose negation wraps), and 64 iterations of
    the loop are enough. *)
Theorem fmtInteger_signed10_roundtrip v :
  int_min <= v <= int_max -> parse_int (fmtInteger_signed10 v) = Some v.
Proof.
  intros Hv. unfold fmtInteger_signed10, int_min, int_max, uint_max in *.
  destruct (v <? 0) eqn:Hneg; go_bool.
  - rewrite to_uint64_neg by (unfold int_min; lia).
    rewrite parse_int_neg, fmt_loop10_roundtrip by (unfold uint_max; lia).
    cbn. f_equal. lia.
  - apply parse_int_of_uint. rewrite to_uint64_id by (unfold uint_max; lia).
    apply fmt_loop10_roundtrip. unfold uint_max; lia.
Qed.

Lemma fmtInteger_signed10_roundtrip_witness :
  (int_min <= int_min <= int_max) /\
  parse_int (fmtInteger_signed10 int_min) = Some int_min.
Proof.
  split; [unfold int_min, int_max; lia|].
  apply fmtInteger_signed10_roundtrip. unfold int_min, int_max; lia.
Defined.

(** C20: a non-nil pointer is printed by [%v] as [0x] followed by its
    address in lower-case hexadecimal ([fmt0x64]), and the address reads
    back from the text: the mask-and-shift loop of base 16 computes the
    hexadecimal digits. *)
Theorem fmt_v_ptr_roundtrip a :
  0 < a <= uint_max -> parse_ptr (fmt_v (GPtr a)) = Some a.
Proof.
  intros Ha. unfold fmt_v. destruct (a =? 0) eqn:E; go_bool; [lia|].
  unfold fmt0x64. rewrite to_uint64_id by lia.
  change (digit_at 16) with "x"%char.
  rewrite parse_ptr_0x. apply fmt_loop16_roundtrip. lia.
Qed.

Lemma fmt_v_ptr_roundtrip_witness :
  (0 < 824633794688 <= uint_max) /\
  parse_ptr (fmt_v (GPtr 824633794688)) = Some 824633794688.
Proof.
  split; [unfold uint_max; lia|].
  apply fmt_v_ptr_roundtrip. unfold uint_max; lia.
Defined.

Example fmt_v_examples :
  fmt_v (GPtr 824633794688) = "0xc000012080" /\
  fmt_v (GInt (-42)) = "-42" /\
  fmt_v (GIntSlice [3; 1; 2]) = "[3 1 2]" /\
  fmt_v (GIntSlice []) = "[]" /\
  Sprintln [GString "My id is"; GInt 10] = "My id is 10
".
Proof. vm_compute. repeat split. Qed.
