(* ===== verification/Mem.v ===== *)
(** * Mem: the Go machine state the demo functions run on

    Variables whose address escapes (the [x] of pointers.go) and the
    backing arrays of slices live in the heap.  The heap is a finite map
    from addresses to [int] cells, filled by a bump allocator; address [0]
    is [nil].  The state also records what the program writes:
    [fmt.Println] lines on standard output and [log.Println] lines on
    standard error (without the clock-dependent timestamp [log] puts
    first).

    Code runs in the monad [M]: a function of the state that either
    returns a value and a new state, or panics with a Go runtime error
    (keeping the state reached, whose output was already written).  The
    invariant [wf] says that every allocated address lies strictly between
    [nil] and the allocator's next address; every primitive preserves it,
    and so does every program built from them ([preserves]). *)

From S2P Require Import Prelude GoFmt.

Local Open Scope string_scope.
Local Open Scope Z_scope.

(** ** State *)

Inductive event :=
| EvPrint (line : string)   (** written by [fmt.Println] to stdout *)
| EvLog (line : string).    (** written by [log.Println] to stderr *)

Record GoState := mkState {
  heap : gmap Z Z;
  next : Z;
  out : list event
}.

(** Go's runtime panics the program can raise: [boundsError] kinds of
    runtime/error.go, the nil dereference, and [growslice]'s own panic. *)
Inductive runtime_error :=
| IndexOutOfRange (i len : Z)        (** [boundsIndex] *)
| SliceAcapOutOfRange (hi cap : Z)   (** [boundsSliceAcap]: [s[:hi]] with [hi > cap] *)
| SliceBOutOfRange (lo hi : Z)       (** [boundsSliceB]: [s[lo:hi]] with [lo > hi] *)
| NilDereference
| GrowsliceLenOutOfRange
| ReflectSliceIndexOutOfRange.        (** [reflectlite.Swapper]'s panic *)

(** The text [panic] prints, [runtime error: ...] as in runtime/error.go. *)
Definition runtime_error_msg (e : runtime_error) : string :=
  match e with
  | IndexOutOfRange i n =>
      "runtime error: index out of range [" ++ fmtInteger_signed10 i ++
      "] with length " ++ fmtInteger_signed10 n
  | SliceAcapOutOfRange hi c =>
      "runtime error: slice bounds out of range [:" ++ fmtInteger_signed10 hi ++
      "] with capacity " ++ fmtInteger_signed10 c
  | SliceBOutOfRange lo hi =>
      "runtime error: slice bounds out of range [" ++ fmtInteger_signed10 lo ++
      ":" ++ fmtInteger_signed10 hi ++ "]"
  | NilDereference =>
      "runtime error: invalid memory address or nil pointer dereference"
  | GrowsliceLenOutOfRange => "growslice: len out of range"
  | ReflectSliceIndexOutOfRange => "reflect: slice index out of range"
  end.

(** ** The monad *)

Inductive outcome (A : Type) :=
| Ok (a : A) (s : GoState)
| Panic (e : runtime_error) (s : GoState).
Arguments Ok {A}. Arguments Panic {A}.

Definition M (A : Type) : Type := GoState -> outcome A.

Definition ret {A} (a : A) : M A := fun s => Ok a s.

Definition bind {A B} (m : M A) (k : A -> M B) : M B :=
  fun s => match m s with Ok a s' => k a s' | Panic e s' => Panic e s' end.

Definition throw {A} (e : runtime_error) : M A := fun s => Panic e s.

Notation "x <- m ;; k" := (bind m (fun x => k))
  (at level 100, m at next level, right associativity) : go_scope.
Notation "m ;; k" := (bind m (fun _ => k))
  (at level 100, right associativity) : go_scope.

Local Open Scope go_scope.

(** The state after running [m], whether it returned or panicked. *)
Definition final_state {A} (o : outcome A) : GoState :=
  match o with Ok _ s | Panic _ s => s end.

(** ** Primitives *)

(** [new(int)] / [make([]int, n)]: [n] zeroed cells at the next address. *)
Definition alloc (n : Z) : M Z :=
  fun s =>
    let a := next s in
    Ok a (mkState (foldr (fun i h => <[a + i := 0]> h) (heap s) (seqZ 0 n))
                  (next s + Z.max n 1) (out s)).

(** [*p]: a nil pointer panics. *)
Definition load (a : Z) : M Z :=
  fun s =>
    if a =? 0 then Panic NilDereference s
    else match heap s !! a with
         | Some v => Ok v s
         | None => Panic NilDereference s
         end.

(** [*p = v] *)
Definition store (a v : Z) : M unit :=
  fun s =>
    if a =? 0 then Panic NilDereference s
    else match heap s !! a with
         | Some _ => Ok tt (mkState (<[a := v]> (heap s)) (next s) (out s))
         | None => Panic NilDereference s
         end.

Definition emit (e : event) : M unit :=
  fun s => Ok tt (mkState (heap s) (next s) (out s ++ [e])).

(** [fmt.Println(args...)] *)
Definition fmt_Println (args : list gval) : M unit := emit (EvPrint (Sprintln args)).

(** [log.Println(args...)] *)
Definition log_Println (args : list gval) : M unit := emit (EvLog (Sprintln args)).

(** ** The heap invariant *)

Definition wf (s : GoState) : Prop :=
  0 < next s /\ forall a, is_Some (heap s !! a) -> 0 < a < next s.

(** [m] keeps [wf], whether it returns or panics. *)
Definition preserves {A} (m : M A) : Prop :=
  forall s, wf s -> wf (final_state (m s)).

Definition initial_state : GoState := mkState ∅ 1 [].

(** ** Monad laws and equations *)

Lemma bind_Ok {A B} (m : M A) (k : A -> M B) s a s' :
  m s = Ok a s' -> bind m k s = k a s'.
Proof. unfold bind. by intros ->. Qed.

Lemma bind_Panic {A B} (m : M A) (k : A -> M B) s e s' :
  m s = Panic e s' -> bind m k s = Panic e s'.
Proof. unfold bind. by intros ->. Qed.

Lemma bind_assoc {A B C} (m : M A) (k : A -> M B) (h : B -> M C) s :
  bind (bind m k) h s = bind m (fun a => bind (k a) h) s.
Proof. unfold bind. by destruct (m s). Qed.

Lemma ret_bind {A B} (a : A) (k : A -> M B) s : bind (ret a) k s = k a s.
Proof. reflexivity. Qed.

(** ** Primitive specifications *)

Lemma foldr_insert_lookup (a : Z) (g : Z -> Z) (l : list Z) (h : gmap Z Z) i :
  foldr (fun j h => <[a + j := g j]> h) h l !! i =
  if decide (i - a ∈ l) then Some (g (i - a)) else h !! i.
Proof.
  induction l as [|j l IH]; simpl.
  - done.
  - rewrite lookup_insert, IH.
    destruct (decide (a + j = i)) as [Hj|Hj].
    + rewrite decide_True; [by replace (i - a) with j by lia|].
      rewrite elem_of_cons. left. lia.
    + destruct (decide (i - a ∈ l)) as [Hl|Hl].
      * rewrite decide_True; [done|]. by right.
      * rewrite decide_False; [done|]. rewrite elem_of_cons.
        intros [? | ?]; [lia | done].
Qed.

Lemma foldl_insert_lookup (a : Z) (g : Z -> Z) (l : list Z) (h : gmap Z Z) i :
  foldl (fun h j => <[a + j := g j]> h) h l !! i =
  if decide (i - a ∈ l) then Some (g (i - a)) else h !! i.
Proof.
  revert h. induction l as [|j l IH]; intros h; simpl; [done|].
  rewrite IH, lookup_insert.
  destruct (decide (i - a ∈ l)) as [Hl|Hl].
  - rewrite decide_True; [done|]. by right.
  - destruct (decide (a + j = i)) as [Hj|Hj].
    + rewrite decide_True; [by replace (i - a) with j by lia|].
      rewrite elem_of_cons. left. lia.
    + rewrite decide_False; [done|]. rewrite elem_of_cons.
      intros [? | ?]; [lia | done].
Qed.

Lemma alloc_lookup n s i :
  heap (final_state (alloc n s)) !! i =
  if decide (next s <= i < next s + n) then Some 0 else heap s !! i.
Proof.
  unfold alloc; simpl. rewrite (foldr_insert_lookup _ (fun _ => 0)).
  by apply decide_ext; rewrite elem_of_seqZ; lia.
Qed.

Lemma load_Ok a v s : a <> 0 -> heap s !! a = Some v -> load a s = Ok v s.
Proof. intros Ha Hv. unfold load. destruct (a =? 0) eqn:E; go_bool; [lia|]. by rewrite Hv. Qed.

Lemma store_Ok a v s :
  a <> 0 -> is_Some (heap s !! a) ->
  store a v s = Ok tt (mkState (<[a := v]> (heap s)) (next s) (out s)).
Proof.
  intros Ha [w Hw]. unfold store. destruct (a =? 0) eqn:E; go_bool; [lia|].
  by rewrite Hw.
Qed.

Lemma store_nil v s : store 0 v s = Panic NilDereference s.
Proof. reflexivity. Qed.

(** ** Invariant preservation *)

Lemma bind_preserves {A B} (m : M A) (k : A -> M B) :
  preserves m -> (forall a, preserves (k a)) -> preserves (bind m k).
Proof.
  intros Hm Hk s Hs. specialize (Hm s Hs). unfold bind.
  destruct (m s) as [a s'|e s']; simpl in *; [by apply Hk | done].
Qed.

Lemma ret_preserves {A} (a : A) : preserves (ret a).
Proof. intros s Hs. exact Hs. Qed.

Lemma throw_preserves {A} e : preserves (@throw A e).
Proof. intros s Hs. exact Hs. Qed.

Lemma alloc_preserves n : preserves (alloc n).
Proof.
  intros s [Hn Hdom]. split; [simpl; lia|].
  intros a Ha. rewrite alloc_lookup in Ha. simpl. case_decide; [lia|].
  specialize (Hdom a Ha). lia.
Qed.

Lemma load_preserves a : preserves (load a).
Proof.
  intros s Hs. unfold load. destruct (a =? 0); [done|].
  by destruct (heap s !! a).
Qed.

Lemma store_preserves a v : preserves (store a v).
Proof.
  intros s [Hn Hdom]. unfold store. destruct (a =? 0); [by split|].
  destruct (heap s !! a) eqn:Ha; [|by split].
  split; [done|]. simpl. intros b Hb.
  rewrite lookup_insert in Hb. case_decide; [subst; apply Hdom; by eexists|].
  by apply Hdom.
Qed.

Lemma emit_preserves e : preserves (emit e).
Proof. intros s Hs. exact Hs. Qed.

Lemma fmt_Println_preserves args : preserves (fmt_Println args).
Proof. apply emit_preserves. Qed.

Lemma log_Println_preserves args : preserves (log_Println args).
Proof. apply emit_preserves. Qed.

Lemma wf_insert_existing st a v :
  wf st -> is_Some (heap st !! a) -> wf (mkState (<[a := v]> (heap st)) (next st) (out st)).
Proof.
  intros [Hn Hdom] Ha. split; [done|]. simpl. intros b Hb.
  rewrite lookup_insert in Hb. case_decide; [subst; by apply Hdom | by apply Hdom].
Qed.

(** [wf] as a boolean check, for concrete states. *)
Definition wfb (st : GoState) : bool :=
  (0 <? next st) &&
  forallb (fun a => (0 <? a) && (a <? next st)) (elements (dom (heap st))).

Lemma wfb_wf st : wfb st = true -> wf st.
Proof.
  unfold wfb. intros H. apply andb_true_iff in H as [Hn Hall]. go_bool.
  split; [done|]. intros a Ha. rewrite forallb_forall in Hall.
  assert (Hin : In a (elements (dom (heap st)))).
  { apply list_elem_of_In, elem_of_elements, elem_of_dom. done. }
  specialize (Hall a Hin). go_bool. lia.
Qed.

Lemma initial_state_wf : wf initial_state.
Proof. split; simpl; [lia|]. intros a [v Hv]. done. Qed.

#[export] Hint Resolve bind_preserves ret_preserves throw_preserves
  alloc_preserves load_preserves store_preserves emit_preserves
  fmt_Println_preserves log_Println_preserves : go.

(** Close a [preserves] goal for a program built from the primitives. *)
(** Run [tac] on the state the goal's computation starts from. *)
Ltac with_state tac :=
  lazymatch goal with
  | |- context [_ (mkState ?h ?n ?o) = Ok _ _] => tac (mkState h n o)
  end.

(** The state the goal runs on is well formed, from [W] after [emit]s. *)
Ltac state_wf W W' := with_state ltac:(fun S => assert (W' : wf S) by exact W).

Ltac solve_preserves :=
  repeat (apply bind_preserves; intros); eauto with go.

(** ** Symbolic execution

    One equation per primitive in position [bind prim k s]; [go_run]
    rewrites a program with them from left to right, discharging the
    side conditions (non-nil, allocated) with [lia] and [simplify_map_eq]. *)

Lemma bind_alloc {B} n (k : Z -> M B) s :
  bind (alloc n) k s =
  k (next s) (mkState (foldr (fun i h => <[next s + i := 0]> h) (heap s) (seqZ 0 n))
                      (next s + Z.max n 1) (out s)).
Proof. reflexivity. Qed.

Lemma bind_load {B} a v (k : Z -> M B) s :
  a <> 0 -> heap s !! a = Some v -> bind (load a) k s = k v s.
Proof. intros. apply bind_Ok. by apply load_Ok. Qed.

Lemma bind_store {B} a v (k : unit -> M B) s :
  a <> 0 -> is_Some (heap s !! a) ->
  bind (store a v) k s = k tt (mkState (<[a := v]> (heap s)) (next s) (out s)).
Proof. intros. apply bind_Ok. by apply store_Ok. Qed.

Lemma bind_emit {B} e (k : unit -> M B) s :
  bind (emit e) k s = k tt (mkState (heap s) (next s) (out s ++ [e])).
Proof. reflexivity. Qed.

Lemma emit_Ok e s : emit e s = Ok tt (mkState (heap s) (next s) (out s ++ [e])).
Proof. reflexivity. Qed.

Lemma seqZ_0_1 : seqZ 0 1 = [0].
Proof. reflexivity. Qed.

Ltac go_side :=
  first [ lia
        | simplify_map_eq; first [done | eexists; done | lia]
        | done ].

(** Evaluate the allocator's closed arithmetic: [seqZ 0 n] and
    [Z.max n 1] for a numeral [n], and [a + 0]. *)
Ltac go_closed :=
  repeat match goal with
  | |- context [seqZ 0 (Zpos ?p)] =>
      let l := eval vm_compute in (seqZ 0 (Zpos p)) in change (seqZ 0 (Zpos p)) with l
  | |- context [Z.max (Zpos ?p) (Zpos ?q)] =>
      let m := eval vm_compute in (Z.max (Zpos p) (Zpos q)) in
      change (Z.max (Zpos p) (Zpos q)) with m
  | |- context [?a + 0] => rewrite (Z.add_0_r a)
  end.

Ltac go_run :=
  unfold fmt_Println, log_Println in *;
  repeat (first [ rewrite bind_assoc
                | rewrite bind_emit
                | rewrite emit_Ok
                | rewrite ret_bind
                | rewrite bind_alloc
                | erewrite bind_load by go_side
                | rewrite bind_store by go_side
                | erewrite load_Ok by go_side
                | rewrite store_Ok by go_side ];
          cbv beta; go_closed; cbn [heap next out foldr]; go_closed).
