(* ===== verification/Pointers.v ===== *)
(** * Pointers: src/basics/pointers.go

    [UnderstandPointers] declares [x := 10], takes [p := &x], prints [x],
    [&x], [p] and [*p], calls [passByValue(p)], which prints its copy [y]
    of the pointer and writes [*y = 20], and prints [p] and [x] again.
    [x] has its address taken and printed, so it escapes to the heap: it is
    one cell allocated by [alloc 1].  Go passes the pointer by value: the
    callee's [y] is a copy of [p], and the write through it is a write to
    [x]'s cell.

    Theorems: the whole function's run from any well-formed state (the
    seven lines it prints, [x] ending at 20), [passByValue] on a valid
    pointer (one line printed, exactly one cell changed) and on [nil] (the
    line is printed, then the nil dereference panics). *)

From S2P Require Import Prelude GoFmt Mem.

Local Open Scope string_scope.
Local Open Scope Z_scope.
Local Open Scope go_scope.

(** The newline [Println] ends each line with. *)
Definition nl : string := String "010"%char "".

(** pointers.go lines 20-23. *)
Definition passByValue (y : Z) : M unit :=
  fmt_Println [GString "Value of y inside function:"; GPtr y] ;;
  store y 20.

(** pointers.go lines 5-18. *)
Definition UnderstandPointers : M unit :=
  x <- alloc 1 ;;
  store x 10 ;;
  let p := x in
  vx <- load x ;;
  fmt_Println [GString "Value of x:"; GInt vx] ;;
  fmt_Println [GString "Address of x:"; GPtr x] ;;
  fmt_Println [GString "Value of p:"; GPtr p] ;;
  vp <- load p ;;
  fmt_Println [GString "Value at address p points to:"; GInt vp] ;;
  passByValue p ;;
  fmt_Println [GString "Value of p:"; GPtr p] ;;
  vx' <- load x ;;
  fmt_Println [GString "Value of x after function call:"; GInt vx'].

(** What [UnderstandPointers] prints when [x] is at address [a]. *)
Definition pointers_output (a : Z) : list event :=
  map EvPrint
    [ "Value of x: 10" ++ nl;
      "Address of x: " ++ fmt_v (GPtr a) ++ nl;
      "Value of p: " ++ fmt_v (GPtr a) ++ nl;
      "Value at address p points to: 10" ++ nl;
      "Value of y inside function: " ++ fmt_v (GPtr a) ++ nl;
      "Value of p: " ++ fmt_v (GPtr a) ++ nl;
      "Value of x after function call: 20" ++ nl ].

(** ** Lemmas *)

Lemma alloc_1_Ok s :
  alloc 1 s = Ok (next s) (mkState (<[next s := 0]> (heap s)) (next s + 1) (out s)).
Proof. unfold alloc. simpl. by rewrite Z.add_0_r. Qed.

Lemma fmt_Println_Ok args s :
  fmt_Println args s = Ok tt (mkState (heap s) (next s) (out s ++ [EvPrint (Sprintln args)])).
Proof. reflexivity. Qed.

Lemma Sprintln_str_ptr str a :
  Sprintln [GString str; GPtr a] = str ++ " " ++ fmt_v (GPtr a) ++ nl.
Proof. unfold Sprintln. simpl. by rewrite <- !string_app_assoc. Qed.

(** ** Theorems *)

(** C10: [passByValue] on a valid pointer prints the pointer it received
    and then writes 20 into the cell it points to; no other cell changes
    and the allocator is untouched. *)
Theorem passByValue_Ok y s :
  y <> 0 -> is_Some (heap s !! y) ->
  passByValue y s =
  Ok tt (mkState (<[y := 20]> (heap s)) (next s)
          (out s ++ [EvPrint ("Value of y inside function: " ++ fmt_v (GPtr y) ++ nl)])).
Proof.
  intros Hy Hs. unfold passByValue. go_run. by rewrite Sprintln_str_ptr.
Qed.

Lemma passByValue_Ok_witness :
  (7 <> 0 /\ is_Some (heap (mkState {[7 := 10]} 8 []) !! 7)) /\
  passByValue 7 (mkState {[7 := 10]} 8 []) =
  Ok tt (mkState (<[7 := 20]> {[7 := 10]}) 8
          ([] ++ [EvPrint ("Value of y inside function: " ++ fmt_v (GPtr 7) ++ nl)])).
Proof.
  assert (H : 7 <> 0 /\ is_Some (heap (mkState {[7 := 10]} 8 []) !! 7))
    by (split; [lia | simpl; rewrite lookup_singleton_eq; by eexists]).
  split; [exact H|]. apply passByValue_Ok; apply H.
Defined.

(** C11: [passByValue(nil)] prints [<nil>] and then panics with Go's nil
    pointer dereference, leaving the heap as it was. *)
Theorem passByValue_nil s :
  passByValue 0 s =
  Panic NilDereference
    (mkState (heap s) (next s) (out s ++ [EvPrint ("Value of y inside function: <nil>" ++ nl)])).
Proof. reflexivity. Qed.

Lemma UnderstandPointers_preserves : preserves UnderstandPointers.
Proof. unfold UnderstandPointers, passByValue. solve_preserves. Qed.

(** The run of [UnderstandPointers], as used by [main]. *)
Lemma UnderstandPointers_run s :
  wf s ->
  exists s', UnderstandPointers s = Ok tt s' /\
    heap s' !! next s = Some 20 /\
    out s' = (out s ++ pointers_output (next s))%list /\ wf s'.
Proof.
  intros Hwf. pose proof (UnderstandPointers_preserves s Hwf) as Hp.
  destruct Hwf as [Hn _].
  destruct (UnderstandPointers s) as [[] s'|e s'] eqn:Hrun; simpl in Hp.
  - exists s'. split; [done|]. revert Hrun.
    unfold UnderstandPointers, passByValue. go_run. intros [= <-]. simpl.
    split; [by simplify_map_eq|]. split; [|done].
    rewrite !Sprintln_str_ptr, <- !app_assoc. reflexivity.
  - revert Hrun. unfold UnderstandPointers, passByValue. go_run. discriminate.
Qed.

(** C1: from any well-formed state, [UnderstandPointers] returns normally,
    prints exactly the seven lines of pointers.go (the address of [x], the
    value of [p] before and after the call, and the callee's [y] are the
    same pointer; [*p] reads 10; [x] reads 20 after the call), leaves [x]'s
    cell at 20, and the new state is well formed. *)
Theorem UnderstandPointers_spec s :
  wf s ->
  exists s', UnderstandPointers s = Ok tt s' /\
    heap s' !! next s = Some 20 /\
    out s' = (out s ++ pointers_output (next s))%list /\ wf s'.
Proof. apply UnderstandPointers_run. Qed.

Lemma UnderstandPointers_spec_witness :
  wf initial_state /\
  exists s', UnderstandPointers initial_state = Ok tt s' /\
    heap s' !! next initial_state = Some 20 /\
    out s' = (out initial_state ++ pointers_output (next initial_state))%list /\ wf s'.
Proof.
  split; [exact initial_state_wf|].
  apply UnderstandPointers_spec. exact initial_state_wf.
Defined.
