(* ===== verification/Growslice.v ===== *)
(** * Growslice: how [append] chooses a new capacity

    When [append] runs out of capacity, Go's runtime ([growslice] in
    runtime/slice.go) asks [nextslicecap] for a capacity (double while
    small, then grow by about 1.25 + 192 elements per round until the
    requested length fits), rounds the byte size up to an allocator size
    class ([roundupsize] in runtime/msize.go), and panics when the result
    exceeds [maxAlloc].

    The slice model ([Slices.v]) does not depend on these numbers: it is
    proved against the class [GrowPolicy], whose law says that a granted
    capacity holds the requested length.  [go_grow] is the instance for
    [[]int] (8-byte elements, no pointers), and the theorems here show it
    satisfies the law: the growth loop terminates (within 4 rounds, which
    is the fuel it runs on) and returns a capacity at least the requested
    length, for every length and capacity of Go's [int] range. *)

From S2P Require Import Prelude.

Local Open Scope Z_scope.

(** ** The interface *)

Class GrowPolicy := {
  (** [grow_cap newLen oldCap]: the capacity of the new backing array,
      or [None] when [growslice] panics with "len out of range". *)
  grow_cap : Z -> Z -> option Z;
  grow_cap_fits : forall n c k,
    0 <= n <= int_max -> 0 <= c <= int_max -> grow_cap n c = Some k -> n <= k;
  grow_cap_bound : forall n c k, grow_cap n c = Some k -> k <= int_max
}.

(** ** Go's [nextslicecap] (runtime/slice.go) *)

Definition threshold : Z := 256.

(** One round of [for { newcap += (newcap + 3*threshold) >> 2; ... }]
    on Go's [int]: both additions wrap, and [>>] on a signed [int] is
    arithmetic ([Z.shiftr] floors). *)
Definition nsc_step (newcap : Z) : Z :=
  wrap64 (newcap + Z.shiftr (wrap64 (newcap + 3 * threshold)) 2).

(** The loop, exiting when [uint(newcap) >= uint(newLen)]; [None] when
    the fuel runs out (never, by [nsc_loop_exits]). *)
Fixpoint nsc_loop (fuel : nat) (newcap newLen : Z) : option Z :=
  match fuel with
  | O => None
  | S f =>
      let newcap := nsc_step newcap in
      if to_uint64 newLen <=? to_uint64 newcap then Some newcap
      else nsc_loop f newcap newLen
  end.

(** Four rounds suffice: the loop only runs when [newLen <= 2*oldCap], and
    each round multiplies the capacity by at least 5/4. *)
Definition nsc_fuel : nat := 4.

Definition nextslicecap (newLen oldCap : Z) : option Z :=
  let newcap := oldCap in
  let doublecap := wrap64 (newcap + newcap) in
  if doublecap <? newLen then Some newLen
  else if oldCap <? threshold then Some doublecap
  else match nsc_loop nsc_fuel newcap newLen with
       | Some newcap => Some (if newcap <=? 0 then newLen else newcap)
       | None => None
       end.

(** ** [roundupsize] for objects without pointers (runtime/msize.go) *)

(** [class_to_size] of runtime/sizeclasses.go. *)
Definition class_to_size : list Z :=
  [0; 8; 16; 24; 32; 48; 64; 80; 96; 112; 128; 144; 160; 176; 192; 208;
   224; 240; 256; 288; 320; 352; 384; 416; 448; 480; 512; 576; 640; 704;
   768; 896; 1024; 1152; 1280; 1408; 1536; 1792; 2048; 2304; 2688; 3072;
   3200; 3456; 4096; 4864; 5376; 6144; 6528; 6784; 6912; 8192; 9472; 9728;
   10240; 10880; 12288; 13568; 14336; 16384; 18432; 19072; 20480; 21760;
   24576; 27264; 28672; 32768].

Definition maxSmallSize : Z := 32768.
Definition mallocHeaderSize : Z := 8.
Definition pageSize : Z := 8192.
Definition maxAlloc : Z := 2 ^ 48.

(** The size class [size_to_class8]/[size_to_class128] select: the
    smallest class at least [size]. *)
Fixpoint smallest_class (cls : list Z) (size : Z) : Z :=
  match cls with
  | [] => size
  | c :: cls' => if size <=? c then c else smallest_class cls' size
  end.

(** [roundupsize(size, true)] on a [uintptr]: [reqSize += pageSize - 1]
    wraps modulo 2^64, and a wrapped sum returns [size] unrounded. *)
Definition roundupsize (size : Z) : Z :=
  if size <=? maxSmallSize - mallocHeaderSize then smallest_class class_to_size size
  else
    let reqSize := (size + (pageSize - 1)) mod 2 ^ 64 in
    if reqSize <? size then size
    else Z.land reqSize (Z.lnot (pageSize - 1)).

(** [growslice]'s capacity computation for [et.Size_ == goarch.PtrSize]:
    [capmem = roundupsize(uintptr(newcap) * 8)], the overflow checks, and
    [newcap = int(capmem / 8)]. *)
Definition go_grow_cap (newLen oldCap : Z) : option Z :=
  match nextslicecap newLen oldCap with
  | None => None
  | Some newcap =>
      let capmem := roundupsize (to_uint64 (to_uint64 newcap * 8)) in
      let overflow := maxAlloc / 8 <? to_uint64 newcap in
      if overflow || (maxAlloc <? capmem) then None else Some (capmem / 8)
  end.

(** ** Lemmas *)

Lemma to_uint64_wrap64 x : to_uint64 (wrap64 x) = to_uint64 x.
Proof.
  unfold to_uint64, wrap64.
  rewrite Zminus_mod, Z.mod_mod, <- Zminus_mod by lia.
  replace (x + 2 ^ 63 - 2 ^ 63) with x by ring. reflexivity.
Qed.

(** While [newcap + 768] fits in an [int], the inner sum does not wrap. *)
Lemma nsc_step_inner n :
  0 <= n -> n + 768 <= int_max -> wrap64 (n + 3 * threshold) = n + 768.
Proof. intros. unfold threshold. apply wrap64_id. unfold int_min in *. lia. Qed.

Lemma nsc_step_uint n :
  0 <= n -> n + 768 <= int_max ->
  to_uint64 (nsc_step n) = n + (n + 768) / 4 /\ 4 * (n + (n + 768) / 4) >= 5 * n.
Proof.
  intros Hn Hm. unfold nsc_step. rewrite nsc_step_inner by done. unfold int_max in *.
  rewrite to_uint64_wrap64, Z.shiftr_div_pow2 by lia.
  change (2 ^ 2) with 4.
  pose proof (Z.div_mod (n + 768) 4). pose proof (Z.mod_pos_bound (n + 768) 4).
  split; [|lia]. apply to_uint64_id. unfold uint_max. lia.
Qed.

Lemma nsc_step_small n :
  0 <= n -> n + 768 <= int_max -> n + (n + 768) / 4 <= int_max ->
  nsc_step n = n + (n + 768) / 4.
Proof.
  intros Hn Hm Hs. unfold nsc_step. rewrite nsc_step_inner by done.
  rewrite Z.shiftr_div_pow2 by lia. change (2 ^ 2) with 4.
  apply wrap64_id. split; [|lia]. unfold int_min. pose proof (Z.div_pos (n + 768) 4). lia.
Qed.

Lemma nsc_loop_S f n l :
  nsc_loop (S f) n l =
  if to_uint64 l <=? to_uint64 (nsc_step n) then Some (nsc_step n)
  else nsc_loop f (nsc_step n) l.
Proof. reflexivity. Qed.

(** Termination of the growth loop: with [newLen * 4^(f+1) <= n * 5^(f+1)]
    the loop exits within [f+1] rounds, at a capacity whose [uint] value
    holds [newLen].  [5^f * (n + 768) <= 4^f * int_max] keeps the inner sum
    [newcap + 3*threshold] from wrapping in every round: it grows by at
    most 5/4 per round. *)
Lemma nsc_loop_exits f n newLen :
  0 <= n -> 0 <= newLen <= int_max ->
  5 ^ Z.of_nat f * (n + 768) <= 4 ^ Z.of_nat f * int_max ->
  newLen * 4 ^ Z.of_nat (S f) <= n * 5 ^ Z.of_nat (S f) ->
  exists c, nsc_loop (S f) n newLen = Some c /\ newLen <= to_uint64 c.
Proof.
  revert n. induction f as [|f IH]; intros n Hn Hl Hm Hb.
  all: assert (Hm' : n + 768 <= int_max)
    by (lazymatch type of Hm with 5 ^ ?k * _ <= _ =>
          pose proof (Z.pow_le_mono_l 4 5 k ltac:(lia));
          pose proof (Z.pow_pos_nonneg 4 k ltac:(lia) ltac:(lia)) end;
        unfold int_max in *; nia).
  all: rewrite nsc_loop_S; destruct (nsc_step_uint n Hn Hm') as [Hu H5];
    rewrite (to_uint64_id newLen) by (unfold int_max, uint_max in *; lia);
    rewrite Hu; destruct (newLen <=? n + (n + 768) / 4) eqn:E; go_bool;
    try (eexists; split; [reflexivity | lia]).
  - simpl in Hb. lia.
  - assert (Hs : n + (n + 768) / 4 <= int_max) by lia.
    rewrite nsc_step_small by lia.
    pose proof (Z.div_mod (n + 768) 4). pose proof (Z.mod_pos_bound (n + 768) 4).
    assert (0 <= 4 ^ Z.of_nat f) by (apply Z.pow_nonneg; lia).
    assert (0 <= 5 ^ Z.of_nat f) by (apply Z.pow_nonneg; lia).
    apply IH; [pose proof (Z.div_pos (n + 768) 4); lia | lia | |].
    + rewrite Nat2Z.inj_succ, !Z.pow_succ_r in Hm by lia. nia.
    + rewrite Nat2Z.inj_succ, !Z.pow_succ_r in Hb by lia.
      assert (0 <= 4 ^ Z.of_nat (S f)) by (apply Z.pow_nonneg; lia).
      assert (0 <= 5 ^ Z.of_nat (S f)) by (apply Z.pow_nonneg; lia).
      nia.
Qed.

Lemma smallest_class_ge cls size : size <= smallest_class cls size.
Proof. induction cls as [|c cls IH]; simpl; [lia|]. go_case; lia. Qed.

Lemma land_lnot_page r : Z.land r (Z.lnot (pageSize - 1)) = r / 8192 * 8192.
Proof.
  rewrite <- Z.ldiff_land. change (pageSize - 1) with (Z.ones 13).
  rewrite Z.ldiff_ones_r, Z.shiftl_mul_pow2, Z.shiftr_div_pow2 by lia. reflexivity.
Qed.

Lemma roundupsize_ge size : 0 <= size < 2 ^ 64 -> size <= roundupsize size.
Proof.
  intros Hs. unfold roundupsize. go_case; [apply smallest_class_ge|]. unfold pageSize.
  destruct (Z.lt_ge_cases (size + (8192 - 1)) (2 ^ 64)) as [Hlt|Hge].
  - rewrite Z.mod_small by lia. go_case; [lia|]. rewrite land_lnot_page.
    pose proof (Z.mod_pos_bound (size + (8192 - 1)) 8192).
    pose proof (Z.div_mod (size + (8192 - 1)) 8192). lia.
  - rewrite <- (Z.mod_unique (size + (8192 - 1)) (2 ^ 64) 1 (size + (8192 - 1) - 2 ^ 64)) by lia.
    go_case; lia.
Qed.

Lemma nsc_loop_range f n l c :
  nsc_loop f n l = Some c -> int_min <= c <= int_max.
Proof.
  revert n. induction f as [|f IH]; intros n; simpl; [discriminate|].
  go_case; [intros [= <-]; apply wrap64_range | apply IH].
Qed.

(** [nextslicecap] returns within four iterations a capacity between
    [newLen] and [int_max]. *)
Lemma nextslicecap_some newLen oldCap :
  0 <= newLen <= int_max -> 0 <= oldCap <= int_max ->
  exists c, nextslicecap newLen oldCap = Some c /\ newLen <= c <= int_max.
Proof.
  intros Hl Hc. unfold nextslicecap.
  pose proof (wrap64_range (oldCap + oldCap)).
  go_case; [eexists; split; [reflexivity | lia]|].
  go_case; [eexists; split; [reflexivity | lia]|].
  assert (Hd : oldCap + oldCap <= int_max).
  { destruct (Z.le_gt_cases (oldCap + oldCap) int_max) as [|Hgt]; [done|].
    rewrite wrap64_high in E by (unfold int_max in *; lia). unfold int_max in *; lia. }
  rewrite wrap64_id in E by (unfold int_min; lia).
  destruct (nsc_loop_exits 3 oldCap newLen) as (c & Hc' & Hle);
    [lia | lia | simpl; unfold int_max in *; lia | simpl; lia |].
  unfold nsc_fuel. rewrite Hc'. pose proof (nsc_loop_range _ _ _ _ Hc').
  eexists; split; [reflexivity|]. go_case; [lia|].
  rewrite to_uint64_id in Hle by (unfold int_max, uint_max in *; lia). lia.
Qed.

(** C12: [nextslicecap] terminates and returns a capacity that holds the
    requested length, for every length and old capacity in Go's [int]
    range: the growth loop exits within its 4 rounds of fuel, and its
    overflow (a capacity that wraps negative) falls back to [newLen]. *)
Theorem nextslicecap_total newLen oldCap :
  0 <= newLen <= int_max -> 0 <= oldCap <= int_max ->
  exists c, nextslicecap newLen oldCap = Some c /\ newLen <= c <= int_max.
Proof. apply nextslicecap_some. Qed.

Lemma nextslicecap_total_witness :
  ((0 <= 1025 <= int_max) /\ (0 <= 1024 <= int_max)) /\
  exists c, nextslicecap 1025 1024 = Some c /\ 1025 <= c <= int_max.
Proof.
  assert (H : (0 <= 1025 <= int_max) /\ (0 <= 1024 <= int_max))
    by (unfold int_max; lia).
  split; [exact H|]. apply nextslicecap_total; apply H.
Defined.

(** Go's policy for [[]int] satisfies the interface. *)
Lemma go_grow_cap_fits n c k :
  0 <= n <= int_max -> 0 <= c <= int_max -> go_grow_cap n c = Some k -> n <= k.
Proof.
  intros Hn Hc. unfold go_grow_cap.
  destruct (nextslicecap_some n c Hn Hc) as (nc & -> & Hnc).
  destruct (maxAlloc / 8 <? to_uint64 nc) eqn:Ho; [discriminate|]. go_bool.
  rewrite (to_uint64_id nc) in * by (unfold int_max, uint_max in *; lia).
  unfold maxAlloc in Ho. change (2 ^ 48 / 8) with (2 ^ 45) in Ho.
  rewrite to_uint64_id by (unfold uint_max; lia).
  go_case; [discriminate|]. intros [= <-].
  pose proof (roundupsize_ge (nc * 8) ltac:(lia)).
  apply Z.div_le_lower_bound; lia.
Qed.

Lemma go_grow_cap_bound n c k : go_grow_cap n c = Some k -> k <= int_max.
Proof.
  unfold go_grow_cap. destruct (nextslicecap n c); [|discriminate].
  destruct (_ || _) eqn:E; [discriminate|]. intros [= <-].
  apply orb_false_iff in E as [_ E]. go_bool.
  apply Z.div_le_upper_bound; unfold maxAlloc, int_max in *; lia.
Qed.

#[export] Instance go_grow : GrowPolicy := {|
  grow_cap := go_grow_cap;
  grow_cap_fits := go_grow_cap_fits;
  grow_cap_bound := go_grow_cap_bound
|}.

(** The capacities Go reports for successive appends to a nil [[]int],
    and the 1024 -> 1536 step of the 1.25 regime after rounding. *)
Example go_grow_cap_examples :
  go_grow_cap 1 0 = Some 1 /\ go_grow_cap 2 1 = Some 2 /\
  go_grow_cap 3 2 = Some 4 /\ go_grow_cap 5 4 = Some 8 /\
  go_grow_cap 1025 1024 = Some 1536.
Proof. vm_compute. repeat split. Qed.
