(* ===== verification/Slices.v ===== *)
(** * Slices: Go's [[]int] as the runtime implements it

    A slice value is a header [{array, len, cap}]: a pointer to a backing
    array in the heap, a length and a capacity; the nil slice is
    [{nil, 0, 0}].  Several headers may share one backing array, so a write
    through one is seen through the others.  This file models the slice
    operations slices.go uses, as the compiler and runtime perform them:

    - indexing [s[i]] and [s[i] = v] with the bounds check
      [uint(i) >= uint(len)] and its [boundsIndex] panic;
    - re-slicing [s[lo:hi]] with the checks [hi <= cap] and [lo <= hi] and
      their panics, sharing the backing array;
    - the slice literal [[]int{...}] (a fresh array, filled in order);
    - [append(s, x)]: in place when [len < cap], otherwise through
      [growslice], which allocates the capacity [GrowPolicy] grants,
      [memmove]s the old elements and lets [append] store [x].

    The operations are proved against any [GrowPolicy] (a Section
    [Context]); [Growslice.go_grow] is Go's.  Theorems: what [append] does
    to the elements and to the memory in each case (in place, sharing the
    old array; or in a fresh array, leaving the old one untouched), its
    panic, the results and panics of re-slicing and indexing, and that the
    literal holds its elements. *)

From S2P Require Import Prelude GoFmt Mem Growslice.

Local Open Scope Z_scope.
Local Open Scope go_scope.

Record slice := mkSlice { sl_array : Z; sl_len : Z; sl_cap : Z }.

Definition nil_slice : slice := mkSlice 0 0 0.

(** The elements a header denotes in heap [h]. *)
Definition elems (h : gmap Z Z) (s : slice) : list Z :=
  map (fun i => h !!! (sl_array s + i)) (seqZ 0 (sl_len s)).

(** A header is valid when [0 <= len <= cap] and its whole backing array
    is allocated. *)
Definition slice_ok (h : gmap Z Z) (s : slice) : Prop :=
  0 <= sl_len s <= sl_cap s /\ sl_cap s <= int_max /\
  forall i, 0 <= i < sl_cap s -> is_Some (h !! (sl_array s + i)).

(** [for _, x := range l { f(x) }] in the monad. *)
Fixpoint forM_ {A} (l : list A) (f : A -> M unit) : M unit :=
  match l with
  | [] => ret tt
  | x :: l' => f x ;; forM_ l' f
  end.

(** [s[i]] *)
Definition index (s : slice) (i : Z) : M Z :=
  if to_uint64 i <? to_uint64 (sl_len s) then load (sl_array s + i)
  else throw (IndexOutOfRange i (sl_len s)).

(** [s[i] = v] *)
Definition index_set (s : slice) (i v : Z) : M unit :=
  if to_uint64 i <? to_uint64 (sl_len s) then store (sl_array s + i) v
  else throw (IndexOutOfRange i (sl_len s)).

(** [s[lo:hi]]: [panicSliceAcap] when [hi > cap], [panicSliceB] when
    [lo > hi]; the new header keeps the array pointer when the new
    capacity is 0 (it would otherwise point past the end). *)
Definition reslice (s : slice) (lo hi : Z) : M slice :=
  if to_uint64 (sl_cap s) <? to_uint64 hi then throw (SliceAcapOutOfRange hi (sl_cap s))
  else if to_uint64 hi <? to_uint64 lo then throw (SliceBOutOfRange lo hi)
  else
    let rcap := sl_cap s - lo in
    ret (mkSlice (if rcap =? 0 then sl_array s else sl_array s + lo) (hi - lo) rcap).

(** [[]int{x0, x1, ...}]: a fresh array, [a[i] = x_i] for each [i]. *)
Definition slice_lit (xs : list Z) : M slice :=
  let n := Z.of_nat (length xs) in
  a <- alloc n ;;
  forM_ (seqZ 0 n) (fun i => store (a + i) (xs !!! Z.to_nat i)) ;;
  ret (mkSlice a n n).

(** Reading a slice's elements, as [fmt] does when it prints one. *)
Definition slice_val (s : slice) : M gval :=
  fun st => Ok (GIntSlice (elems (heap st) s)) st.

(** [memmove(dst, src, n)] for [n] [int]s that do not overlap. *)
Definition memmove (dst src n : Z) : M unit :=
  forM_ (seqZ 0 n) (fun i => v <- load (src + i) ;; store (dst + i) v).

Section WithPolicy.
Context `{GP : GrowPolicy}.

(** [growslice(oldPtr, newLen, oldCap, num, et)] of runtime/slice.go for
    an element type of pointer size without pointers. *)
Definition growslice (oldPtr newLen oldCap num : Z) : M slice :=
  let oldLen := newLen - num in
  if newLen <? 0 then throw GrowsliceLenOutOfRange
  else match grow_cap newLen oldCap with
       | None => throw GrowsliceLenOutOfRange
       | Some newcap =>
           p <- alloc newcap ;;
           memmove p oldPtr oldLen ;;
           ret (mkSlice p newLen newcap)
       end.

(** [append(s, x)] as the compiler expands it: [len += 1; if uint(len) >
    uint(cap) { ptr, len, cap = growslice(ptr, len, cap, 1) };
    *(ptr + len - 1) = x]. *)
Definition append1 (s : slice) (x : Z) : M slice :=
  let newlen := wrap64 (sl_len s + 1) in
  s' <- (if to_uint64 (sl_cap s) <? to_uint64 newlen
         then growslice (sl_array s) newlen (sl_cap s) 1
         else ret (mkSlice (sl_array s) newlen (sl_cap s))) ;;
  store (sl_array s' + (sl_len s' - 1)) x ;;
  ret s'.

End WithPolicy.

(** ** Lemmas *)

Lemma elems_lookup h s (k : nat) :
  elems h s !! k =
  if decide (Z.of_nat k < sl_len s) then Some (h !!! (sl_array s + Z.of_nat k)) else None.
Proof.
  unfold elems. rewrite list_lookup_fmap.
  case_decide as Hk.
  - rewrite lookup_seqZ_lt by lia. simpl. by rewrite Z.add_0_l.
  - rewrite lookup_seqZ_ge by lia. done.
Qed.

Lemma elems_length h s : length (elems h s) = Z.to_nat (sl_len s).
Proof. unfold elems. by rewrite length_map, length_seqZ. Qed.

(** Two heaps that agree on a header's cells give it the same elements. *)
Lemma elems_ext h1 h2 s :
  (forall i, 0 <= i < sl_len s -> h1 !! (sl_array s + i) = h2 !! (sl_array s + i)) ->
  elems h1 s = elems h2 s.
Proof.
  intros Hext. apply list_eq. intros k. rewrite !elems_lookup.
  case_decide; [|done]. unfold lookup_total, map_lookup_total.
  rewrite Hext; [done | lia].
Qed.

(** Every allocated cell of a well-formed state is a non-nil address below
    the allocator's next one. *)
Lemma wf_cell st a : wf st -> is_Some (heap st !! a) -> 0 < a < next st.
Proof. intros [_ Hdom]. apply Hdom. Qed.

(** [slice_ok] as a boolean check, for concrete states. *)
Definition slice_okb (h : gmap Z Z) (s : slice) : bool :=
  (0 <=? sl_len s) && (sl_len s <=? sl_cap s) && (sl_cap s <=? int_max) &&
  forallb (fun i => bool_decide (is_Some (h !! (sl_array s + i)))) (seqZ 0 (sl_cap s)).

Lemma slice_okb_ok h s : slice_okb h s = true -> slice_ok h s.
Proof.
  unfold slice_okb. intros H. repeat (apply andb_true_iff in H as [H ?]). go_bool.
  match goal with Hf : forallb _ _ = true |- _ => rewrite forallb_forall in Hf; rename Hf into Hall end.
  split; [lia|]. split; [done|]. intros i Hi.
  assert (Hin : In i (seqZ 0 (sl_cap s))) by (apply list_elem_of_In, elem_of_seqZ; lia).
  specialize (Hall i Hin). by apply bool_decide_eq_true in Hall.
Qed.

Lemma forM_preserves {A} (l : list A) (f : A -> M unit) :
  (forall x, preserves (f x)) -> preserves (forM_ l f).
Proof. intros Hf. induction l as [|x l IH]; simpl; solve_preserves. Qed.

Lemma forM_store_Ok (l : list Z) a (g : Z -> Z) st :
  (forall i, i ∈ l -> a + i <> 0 /\ is_Some (heap st !! (a + i))) ->
  forM_ l (fun i => store (a + i) (g i)) st =
  Ok tt (mkState (foldl (fun h i => <[a + i := g i]> h) (heap st) l) (next st) (out st)).
Proof.
  revert st. induction l as [|i l IH]; intros st Hcells; [by destruct st|].
  destruct (Hcells i) as (Hnz & Hc); [by left|].
  simpl. rewrite bind_store by done. apply (IH (mkState _ _ _)).
  intros j Hj. destruct (Hcells j) as (? & Hcj); [by right|]. split; [done|].
  simpl. rewrite lookup_insert. case_decide; [by eexists | done].
Qed.

Lemma forM_copy_Ok (l : list Z) dst src (vals : Z -> Z) st :
  (forall i, i ∈ l -> src + i <> 0 /\ dst + i <> 0 /\
     heap st !! (src + i) = Some (vals i) /\ is_Some (heap st !! (dst + i))) ->
  (forall i j, i ∈ l -> j ∈ l -> dst + i <> src + j) ->
  forM_ l (fun i => v <- load (src + i) ;; store (dst + i) v) st =
  Ok tt (mkState (foldl (fun h i => <[dst + i := vals i]> h) (heap st) l) (next st) (out st)).
Proof.
  revert st. induction l as [|i l IH]; intros st Hcells Hdisj; [by destruct st|].
  destruct (Hcells i) as (Hs & Hd & Hv & Hdc); [by left|].
  simpl. rewrite bind_assoc. erewrite bind_load by done.
  rewrite bind_store by done. apply (IH (mkState _ _ _)).
  - intros j Hj. destruct (Hcells j) as (? & ? & Hvj & Hdj); [by right|].
    simpl. repeat split; try done.
    + rewrite lookup_insert_ne; [done|]. apply Hdisj; [by left | by right].
    + rewrite lookup_insert. case_decide; [by eexists | done].
  - intros j j' Hj Hj'. apply Hdisj; by right.
Qed.

Lemma reslice_Ok s lo hi :
  0 <= lo <= hi -> hi <= sl_cap s -> sl_cap s <= int_max ->
  forall st, reslice s lo hi st =
  Ok (mkSlice (if sl_cap s - lo =? 0 then sl_array s else sl_array s + lo)
              (hi - lo) (sl_cap s - lo)) st.
Proof.
  intros Hlo Hhi Hc st. unfold reslice.
  rewrite !to_uint64_id by (unfold int_max, uint_max in *; lia).
  repeat go_case; first [lia | reflexivity].
Qed.

Lemma slice_cell st s i :
  wf st -> slice_ok (heap st) s -> 0 <= i < sl_cap s ->
  exists v, heap st !! (sl_array s + i) = Some v /\ sl_array s + i <> 0.
Proof.
  intros Hwf (_ & _ & Hcells) Hi. destruct (Hcells i Hi) as [v Hv].
  pose proof (wf_cell st _ Hwf ltac:(by eexists)). exists v. split; [done|lia].
Qed.

Lemma index_Ok st s i :
  wf st -> slice_ok (heap st) s -> 0 <= i < sl_len s ->
  index s i st = Ok (heap st !!! (sl_array s + i)) st.
Proof.
  intros Hwf Hok Hi. pose proof Hok as (Hl & Hc & _).
  destruct (slice_cell st s i Hwf Hok ltac:(lia)) as (v & Hv & Hnz).
  unfold index. rewrite !to_uint64_id by (unfold int_max, uint_max in *; lia).
  go_case; [|lia]. rewrite (load_Ok _ v) by done.
  by rewrite (lookup_total_correct _ _ _ Hv).
Qed.

Lemma index_set_Ok st s i v :
  wf st -> slice_ok (heap st) s -> 0 <= i < sl_len s ->
  index_set s i v st = Ok tt (mkState (<[sl_array s + i := v]> (heap st)) (next st) (out st)).
Proof.
  intros Hwf Hok Hi. pose proof Hok as (Hl & Hc & _).
  destruct (slice_cell st s i Hwf Hok ltac:(lia)) as (w & Hw & Hnz).
  unfold index_set. rewrite !to_uint64_id by (unfold int_max, uint_max in *; lia).
  go_case; [|lia]. apply store_Ok; [done | by eexists].
Qed.

(** C13: indexing outside [0 <= i < len] panics with Go's
    "index out of range [i] with length len", for negative indices too
    (the check compares [uint(i)] and [uint(len)]), and changes nothing. *)
Theorem index_out_of_range st s i :
  0 <= sl_len s <= int_max -> int_min <= i <= int_max -> ~ (0 <= i < sl_len s) ->
  index s i st = Panic (IndexOutOfRange i (sl_len s)) st.
Proof.
  intros Hl Hi Hout. unfold index.
  rewrite (to_uint64_id (sl_len s)) by (unfold int_max, uint_max in *; lia).
  destruct (Z.le_gt_cases 0 i).
  - rewrite to_uint64_id by (unfold int_max, uint_max in *; lia). go_case; [lia|done].
  - unfold to_uint64. rewrite <- (Z.mod_add i 1 (2 ^ 64)), Z.mod_small by (unfold int_min in *; lia).
    go_case; [unfold int_max, int_min in *; lia | done].
Qed.

Lemma index_out_of_range_witness :
  (0 <= sl_len (mkSlice 5 2 2) <= int_max /\ int_min <= 3 <= int_max /\
   ~ (0 <= 3 < sl_len (mkSlice 5 2 2))) /\
  index (mkSlice 5 2 2) 3 initial_state = Panic (IndexOutOfRange 3 (sl_len (mkSlice 5 2 2))) initial_state.
Proof.
  assert (H : 0 <= sl_len (mkSlice 5 2 2) <= int_max /\ int_min <= 3 <= int_max /\
    ~ (0 <= 3 < sl_len (mkSlice 5 2 2))) by (unfold int_min, int_max; simpl; lia).
  split; [exact H|]. destruct H as (H1 & H2 & H3).
  exact (index_out_of_range initial_state _ _ H1 H2 H3).
Defined.

Lemma elems_insert h s i v :
  0 <= i < sl_len s ->
  elems (<[sl_array s + i := v]> h) s = <[Z.to_nat i := v]> (elems h s).
Proof.
  intros Hi. apply list_eq. intros k. rewrite elems_lookup.
  destruct (decide (k = Z.to_nat i)) as [->|Hk].
  - rewrite list_lookup_insert_eq by (rewrite elems_length; lia).
    rewrite decide_True by lia. rewrite Z2Nat.id by lia.
    unfold lookup_total, map_lookup_total. by rewrite lookup_insert_eq.
  - rewrite list_lookup_insert_ne by done. rewrite elems_lookup.
    case_decide; [|done]. unfold lookup_total, map_lookup_total.
    rewrite lookup_insert_ne by lia. done.
Qed.

Lemma elems_lookup_total h s (i : nat) :
  (Z.of_nat i < sl_len s) -> elems h s !!! i = h !!! (sl_array s + Z.of_nat i).
Proof.
  intros Hi. rewrite list_lookup_total_alt, elems_lookup, decide_True by done. done.
Qed.

(** The run of a slice literal, as used by callers. *)
Lemma slice_lit_run xs st :
  wf st -> Z.of_nat (length xs) <= int_max ->
  exists st', slice_lit xs st =
    Ok (mkSlice (next st) (Z.of_nat (length xs)) (Z.of_nat (length xs))) st' /\
    elems (heap st') (mkSlice (next st) (Z.of_nat (length xs)) (Z.of_nat (length xs))) = xs /\
    slice_ok (heap st') (mkSlice (next st) (Z.of_nat (length xs)) (Z.of_nat (length xs))) /\
    (forall a, a < next st -> heap st' !! a = heap st !! a) /\
    out st' = out st /\ wf st'.
Proof.
  intros Hwf Hn. pose proof (proj1 Hwf) as Hpos.
  assert (Hpres : preserves (slice_lit xs)).
  { unfold slice_lit. solve_preserves. apply forM_preserves. solve_preserves. }
  pose proof (Hpres st Hwf) as Hp.
  unfold slice_lit in *. rewrite bind_alloc in Hp |- *. cbv beta in Hp |- *.
  assert (Hst := forM_store_Ok (seqZ 0 (Z.of_nat (length xs))) (next st)
    (fun i => xs !!! Z.to_nat i)
    (mkState (foldr (fun i h => <[next st + i := 0]> h) (heap st) (seqZ 0 (Z.of_nat (length xs))))
             (next st + Z.max (Z.of_nat (length xs)) 1) (out st))).
  specialize (Hst ltac:(
    intros i Hi; rewrite elem_of_seqZ in Hi; split; [lia|];
    simpl; rewrite foldr_insert_lookup, decide_True by (rewrite elem_of_seqZ; lia);
    by eexists)).
  rewrite (bind_Ok _ _ _ _ _ Hst) in Hp |- *.
  set (n := Z.of_nat (length xs)) in *.
  eexists; split; [reflexivity|]. cbn [heap next out] in *.
  split; [|split; [|split; [|split; [done | exact Hp]]]].
  - apply list_eq. intros k. rewrite elems_lookup. cbn [sl_array sl_len].
    destruct (decide (Z.of_nat k < n)) as [Hk|Hk].
    + unfold lookup_total, map_lookup_total. rewrite foldl_insert_lookup.
      rewrite decide_True by (rewrite elem_of_seqZ; lia). simpl.
      replace (next st + Z.of_nat k - next st) with (Z.of_nat k) by lia.
      rewrite Nat2Z.id. change (list_lookup_total k xs) with (xs !!! k).
      rewrite list_lookup_total_alt.
      destruct (lookup_lt_is_Some_2 xs k) as [v Hv]; [lia|]. by rewrite Hv.
    + rewrite lookup_ge_None_2; [done | lia].
  - split; [simpl; lia|]. split; [simpl; lia|]. intros i Hi. cbn [sl_array sl_cap] in *.
    rewrite foldl_insert_lookup. case_decide; [by eexists|].
    rewrite foldr_insert_lookup, decide_True by (rewrite elem_of_seqZ; lia). by eexists.
  - intros a Ha. rewrite foldl_insert_lookup, decide_False by (rewrite elem_of_seqZ; lia).
    rewrite foldr_insert_lookup, decide_False by (rewrite elem_of_seqZ; lia). done.
Qed.

(** C15: a slice literal allocates a fresh array of exactly its length at
    the allocator's next address and holds its elements in order; no cell
    that existed before changes and nothing is printed. *)
Theorem slice_lit_spec xs st :
  wf st -> Z.of_nat (length xs) <= int_max ->
  exists st', slice_lit xs st =
    Ok (mkSlice (next st) (Z.of_nat (length xs)) (Z.of_nat (length xs))) st' /\
    elems (heap st') (mkSlice (next st) (Z.of_nat (length xs)) (Z.of_nat (length xs))) = xs /\
    slice_ok (heap st') (mkSlice (next st) (Z.of_nat (length xs)) (Z.of_nat (length xs))) /\
    (forall a, a < next st -> heap st' !! a = heap st !! a) /\
    out st' = out st /\ wf st'.
Proof. apply slice_lit_run. Qed.

Lemma slice_lit_spec_witness :
  (wf initial_state /\ Z.of_nat (length [5; 3; 2; 4; 1]) <= int_max) /\
  exists st', slice_lit [5; 3; 2; 4; 1] initial_state =
    Ok (mkSlice (next initial_state) (Z.of_nat (length [5; 3; 2; 4; 1]))
                (Z.of_nat (length [5; 3; 2; 4; 1]))) st' /\
    elems (heap st') (mkSlice (next initial_state) (Z.of_nat (length [5; 3; 2; 4; 1]))
                              (Z.of_nat (length [5; 3; 2; 4; 1]))) = [5; 3; 2; 4; 1] /\
    slice_ok (heap st') (mkSlice (next initial_state) (Z.of_nat (length [5; 3; 2; 4; 1]))
                                 (Z.of_nat (length [5; 3; 2; 4; 1]))) /\
    (forall a, a < next initial_state -> heap st' !! a = heap initial_state !! a) /\
    out st' = out initial_state /\ wf st'.
Proof.
  assert (H : wf initial_state /\ Z.of_nat (length [5; 3; 2; 4; 1]) <= int_max)
    by (split; [exact initial_state_wf | unfold int_max; simpl; lia]).
  split; [exact H|]. exact (slice_lit_spec _ _ (proj1 H) (proj2 H)).
Defined.

(** The elements of [s[lo:hi]] are a window of those of [s]. *)
Lemma reslice_take_drop s lo hi st :
  0 <= lo <= hi -> hi <= sl_len s -> sl_cap s <= int_max -> sl_len s <= sl_cap s ->
  exists s', reslice s lo hi st = Ok s' st /\
    sl_array s' = (if sl_cap s - lo =? 0 then sl_array s else sl_array s + lo) /\
    elems (heap st) s' = take (Z.to_nat (hi - lo)) (drop (Z.to_nat lo) (elems (heap st) s)).
Proof.
  intros Hlo Hhi Hc Hlc. rewrite reslice_Ok by lia.
  eexists; split; [reflexivity|]. split; [done|].
  apply list_eq. intros k. rewrite elems_lookup. cbn [sl_array sl_len].
  destruct (decide (Z.of_nat k < hi - lo)) as [Hk|Hk].
  - rewrite lookup_take_lt, lookup_drop, elems_lookup by lia.
    rewrite decide_True by lia. go_case; [lia|]. do 2 f_equal. lia.
  - rewrite lookup_take_ge by lia. done.
Qed.

(** C14: [s[lo:hi]] within [0 <= lo <= hi <= len] is a header on the same
    backing array whose elements are [s]'s elements [lo .. hi-1]: a write
    through either is seen through the other. *)
Theorem reslice_elems s lo hi st :
  0 <= lo <= hi -> hi <= sl_len s -> sl_cap s <= int_max -> sl_len s <= sl_cap s ->
  exists s', reslice s lo hi st = Ok s' st /\
    sl_array s' = (if sl_cap s - lo =? 0 then sl_array s else sl_array s + lo) /\
    elems (heap st) s' = take (Z.to_nat (hi - lo)) (drop (Z.to_nat lo) (elems (heap st) s)).
Proof. apply reslice_take_drop. Qed.

Lemma reslice_elems_witness :
  (0 <= 1 <= 3 /\ 3 <= sl_len (mkSlice 1 5 5) /\ sl_cap (mkSlice 1 5 5) <= int_max /\
   sl_len (mkSlice 1 5 5) <= sl_cap (mkSlice 1 5 5)) /\
  exists s', reslice (mkSlice 1 5 5) 1 3 initial_state = Ok s' initial_state /\
    sl_array s' = (if sl_cap (mkSlice 1 5 5) - 1 =? 0 then sl_array (mkSlice 1 5 5)
                   else sl_array (mkSlice 1 5 5) + 1) /\
    elems (heap initial_state) s' =
      take (Z.to_nat (3 - 1)) (drop (Z.to_nat 1) (elems (heap initial_state) (mkSlice 1 5 5))).
Proof.
  assert (H : 0 <= 1 <= 3 /\ 3 <= sl_len (mkSlice 1 5 5) /\
    sl_cap (mkSlice 1 5 5) <= int_max /\ sl_len (mkSlice 1 5 5) <= sl_cap (mkSlice 1 5 5))
    by (unfold int_max; simpl; lia).
  split; [exact H|]. destruct H as (H1 & H2 & H3 & H4).
  exact (reslice_elems _ _ _ initial_state H1 H2 H3 H4).
Defined.

Section WithPolicy.
Context `{GP : GrowPolicy}.

Lemma growslice_Ok oldPtr newLen oldCap newcap :
  0 <= newLen -> grow_cap newLen oldCap = Some newcap ->
  growslice oldPtr newLen oldCap 1 =
  bind (alloc newcap) (fun p => memmove p oldPtr (newLen - 1) ;;
                                ret (mkSlice p newLen newcap)).
Proof.
  intros Hn Hg. unfold growslice. go_case; [lia|]. by rewrite Hg.
Qed.

Lemma append1_preserves s x : preserves (append1 s x).
Proof.
  unfold append1, growslice, memmove. apply bind_preserves; [|solve_preserves].
  repeat go_case; try solve_preserves.
  destruct (grow_cap _ _); solve_preserves; apply forM_preserves; solve_preserves.
Qed.

(** The heap [growslice] and [append] leave: [k] zeroed cells at [p], the
    first [len] of them copied from [arr], then [x] at [p + len]. *)
Definition grown_heap (h : gmap Z Z) (arr len k p x : Z) : gmap Z Z :=
  <[p + len := x]>
    (foldl (fun h' i => <[p + i := h !!! (arr + i)]> h')
           (foldr (fun i h' => <[p + i := 0]> h') h (seqZ 0 k)) (seqZ 0 len)).

Lemma grown_heap_lookup h arr len k p x a :
  0 <= len -> len < k ->
  grown_heap h arr len k p x !! a =
  if decide (a = p + len) then Some x
  else if decide (p <= a < p + len) then Some (h !!! (arr + (a - p)))
  else if decide (p <= a < p + k) then Some 0 else h !! a.
Proof.
  intros Hl Hk. unfold grown_heap. rewrite lookup_insert.
  destruct (decide (p + len = a)) as [Ha|Ha].
  { rewrite decide_True by lia. done. }
  rewrite decide_False by lia.
  rewrite foldl_insert_lookup.
  destruct (decide (a - p ∈ seqZ 0 len)) as [Hin|Hin]; rewrite elem_of_seqZ in Hin.
  { rewrite decide_True by lia. by replace (p + (a - p)) with a by lia. }
  rewrite decide_False by lia.
  rewrite foldr_insert_lookup.
  destruct (decide (a - p ∈ seqZ 0 k)) as [Hk'|Hk']; rewrite elem_of_seqZ in Hk'.
  - by rewrite decide_True by lia.
  - by rewrite decide_False by lia.
Qed.

(** ** [append] *)

(** [append] with spare capacity, as one store into the backing array. *)
Lemma append1_in_place_run st s x :
  wf st -> slice_ok (heap st) s -> sl_len s < sl_cap s ->
  append1 s x st =
  Ok (mkSlice (sl_array s) (sl_len s + 1) (sl_cap s))
     (mkState (<[sl_array s + sl_len s := x]> (heap st)) (next st) (out st)).
Proof.
  intros Hwf (Hl & Hc & Hcells) Hlt. unfold append1.
  rewrite wrap64_id by (unfold int_min in *; lia).
  rewrite !to_uint64_id by (unfold int_max, uint_max in *; lia).
  go_case; [lia|]. rewrite ret_bind. cbn [sl_array sl_len sl_cap].
  replace (sl_len s + 1 - 1) with (sl_len s) by lia.
  pose proof (Hcells (sl_len s) ltac:(lia)) as Hcell.
  pose proof (wf_cell _ _ Hwf Hcell).
  rewrite bind_store by (done || lia). reflexivity.
Qed.

(** C8: with spare capacity, [append] writes [x] into the existing backing
    array, right after the last element, and returns a header on the same
    array; every other slice on that array that is longer than [s] sees
    [x] at index [len(s)] (Go's aliasing of appends). *)
Theorem append1_in_place st s x :
  wf st -> slice_ok (heap st) s -> sl_len s < sl_cap s ->
  append1 s x st =
  Ok (mkSlice (sl_array s) (sl_len s + 1) (sl_cap s))
     (mkState (<[sl_array s + sl_len s := x]> (heap st)) (next st) (out st)) /\
  forall t, sl_array t = sl_array s -> sl_len s < sl_len t ->
    elems (<[sl_array s + sl_len s := x]> (heap st)) t !! Z.to_nat (sl_len s) = Some x.
Proof.
  intros Hwf Hok Hlt. split; [exact (append1_in_place_run st s x Hwf Hok Hlt)|].
  intros t Ht Hlen. pose proof Hok as (Hl & _ & _).
  rewrite elems_lookup, decide_True by lia. rewrite Ht, Z2Nat.id by lia.
  unfold lookup_total, map_lookup_total. by rewrite lookup_insert_eq.
Qed.


Lemma append1_grow_run st s x k :
  wf st -> slice_ok (heap st) s -> sl_len s = sl_cap s -> sl_len s < int_max ->
  grow_cap (sl_len s + 1) (sl_cap s) = Some k ->
  append1 s x st =
  Ok (mkSlice (next st) (sl_len s + 1) k)
     (mkState (grown_heap (heap st) (sl_array s) (sl_len s) k (next st) x)
              (next st + Z.max k 1) (out st)).
Proof.
  intros Hwf (Hl & Hc & Hcells) Heq Hmax Hg.
  assert (Hk : sl_len s + 1 <= k)
    by (apply (grow_cap_fits (sl_len s + 1) (sl_cap s) k); [lia | lia | exact Hg]).
  pose proof (proj1 Hwf) as Hn.
  unfold append1. rewrite wrap64_id by (unfold int_min in *; lia).
  rewrite !to_uint64_id by (unfold int_max, uint_max in *; lia).
  go_case; [|lia]. rewrite (growslice_Ok _ _ _ k) by (done || lia).
  rewrite !bind_assoc, bind_alloc. cbv beta. unfold memmove. rewrite bind_assoc.
  replace (sl_len s + 1 - 1) with (sl_len s) by lia.
  erewrite bind_Ok; cycle 1.
  { apply (forM_copy_Ok _ _ _ (fun i => heap st !!! (sl_array s + i))); cbn [heap].
    - intros i Hi. rewrite elem_of_seqZ in Hi.
      pose proof (Hcells i ltac:(lia)) as [v Hv].
      pose proof (wf_cell _ _ Hwf (ltac:(by eexists) : is_Some (heap st !! (sl_array s + i)))).
      split; [lia|]. split; [lia|]. split.
      + rewrite foldr_insert_lookup, decide_False by (rewrite elem_of_seqZ; lia).
        by rewrite Hv, (lookup_total_correct _ _ _ Hv).
      + rewrite foldr_insert_lookup, decide_True by (rewrite elem_of_seqZ; lia). by eexists.
    - intros i j Hi Hj. rewrite elem_of_seqZ in Hi, Hj.
      pose proof (Hcells j ltac:(lia)) as Hcj. pose proof (wf_cell _ _ Hwf Hcj). lia. }
  rewrite !ret_bind. cbn [sl_array sl_len sl_cap heap next out].
  replace (sl_len s + 1 - 1) with (sl_len s) by lia.
  rewrite bind_store; [reflexivity | lia |].
  cbn [heap]. rewrite (foldl_insert_lookup (next st) (fun i => heap st !!! (sl_array s + i))).
  rewrite foldr_insert_lookup.
  case_decide; [by eexists|]. rewrite decide_True; [by eexists|].
  rewrite elem_of_seqZ. lia.
Qed.

Lemma elems_snoc h h' s arr' c' x :
  0 <= sl_len s ->
  (forall i, 0 <= i < sl_len s -> h' !!! (arr' + i) = h !!! (sl_array s + i)) ->
  h' !!! (arr' + sl_len s) = x ->
  elems h' (mkSlice arr' (sl_len s + 1) c') = elems h s ++ [x].
Proof.
  intros Hl Hold Hx. apply list_eq. intros k. rewrite elems_lookup. cbn [sl_array sl_len].
  destruct (decide (Z.of_nat k < sl_len s)) as [Hk|Hk].
  - rewrite lookup_app_l by (rewrite elems_length; lia).
    rewrite elems_lookup, !decide_True by lia. rewrite Hold by lia. done.
  - rewrite lookup_app_r by (rewrite elems_length; lia). rewrite elems_length.
    case_decide.
    + replace (k - Z.to_nat (sl_len s))%nat with 0%nat by lia.
      replace (Z.of_nat k) with (sl_len s) by lia. by rewrite Hx.
    + rewrite lookup_ge_None_2; [done | simpl; lia].
Qed.

Lemma lookup_total_Some (h : gmap Z Z) a v : h !! a = Some v -> h !!! a = v.
Proof. apply lookup_total_correct. Qed.

(** [append] on a full array: the grown copy, old cells untouched. *)
Lemma append1_grow_elems st s x k :
  wf st -> slice_ok (heap st) s -> sl_len s = sl_cap s -> sl_len s < int_max ->
  grow_cap (sl_len s + 1) (sl_cap s) = Some k ->
  exists st', append1 s x st = Ok (mkSlice (next st) (sl_len s + 1) k) st' /\
    elems (heap st') (mkSlice (next st) (sl_len s + 1) k) = elems (heap st) s ++ [x] /\
    (forall a, a < next st -> heap st' !! a = heap st !! a) /\
    slice_ok (heap st') (mkSlice (next st) (sl_len s + 1) k) /\ out st' = out st.
Proof.
  intros Hwf Hok Heq Hmax Hg.
  pose proof (append1_grow_run st s x k Hwf Hok Heq Hmax Hg) as Hrun.
  destruct Hok as (Hl & Hc & Hcells).
  assert (Hk : sl_len s + 1 <= k)
    by (apply (grow_cap_fits (sl_len s + 1) (sl_cap s) k); [lia | lia | exact Hg]).
  pose proof (grow_cap_bound _ _ _ Hg).
  eexists; split; [exact Hrun|]. cbn [heap out]. split; [|split; [|split]].
  - apply elems_snoc; [lia| |].
    + intros i Hi. unfold lookup_total, map_lookup_total.
      rewrite grown_heap_lookup, decide_False, decide_True by lia.
      simpl. by replace (next st + i - next st) with i by lia.
    + unfold lookup_total, map_lookup_total.
      by rewrite grown_heap_lookup, decide_True by lia.
  - intros a Ha. rewrite grown_heap_lookup by lia.
    rewrite !decide_False by lia. done.
  - split; [simpl; lia|]. split; [simpl; lia|]. intros i Hi. cbn [sl_array sl_cap sl_len] in *.
    rewrite grown_heap_lookup by lia. repeat case_decide; first [by eexists | lia].
  - done.
Qed.

(** C9: when the backing array is full, [append] moves the slice to a
    fresh array of the capacity the policy grants, at the allocator's next
    address: the old elements are copied and [x] follows them, and every
    valid slice of the old state, the appended one included, still has the
    elements it had (slices on the old array do not see [x]). *)
Theorem append1_grow st s x k :
  wf st -> slice_ok (heap st) s -> sl_len s = sl_cap s -> sl_len s < int_max ->
  grow_cap (sl_len s + 1) (sl_cap s) = Some k ->
  exists st', append1 s x st = Ok (mkSlice (next st) (sl_len s + 1) k) st' /\
    elems (heap st') (mkSlice (next st) (sl_len s + 1) k) = elems (heap st) s ++ [x] /\
    slice_ok (heap st') (mkSlice (next st) (sl_len s + 1) k) /\ out st' = out st /\
    forall t, slice_ok (heap st) t -> elems (heap st') t = elems (heap st) t.
Proof.
  intros Hwf Hok Heq Hmax Hg.
  destruct (append1_grow_elems st s x k Hwf Hok Heq Hmax Hg) as (st' & Hrun & He & Hold & Hok' & Ho).
  exists st'. do 4 (split; [done|]). intros t (Hl & Hc & Hcells). apply elems_ext.
  intros i Hi. apply Hold. apply (wf_cell st); [done|]. apply Hcells. lia.
Qed.

(** C5: [append(s, x)] on a valid slice returns a valid slice one element
    longer whose elements are those of [s] followed by [x], prints
    nothing, and keeps the heap well formed; it does so whenever there is
    spare capacity or the growth policy grants a new array. *)
Theorem append1_spec st s x :
  wf st -> slice_ok (heap st) s -> sl_len s < int_max ->
  (sl_len s < sl_cap s \/ grow_cap (sl_len s + 1) (sl_cap s) <> None) ->
  exists s' st', append1 s x st = Ok s' st' /\
    elems (heap st') s' = elems (heap st) s ++ [x] /\
    sl_len s' = sl_len s + 1 /\ slice_ok (heap st') s' /\
    out st' = out st /\ wf st'.
Proof.
  intros Hwf Hok Hmax Hcase. pose proof (append1_preserves s x st Hwf) as Hp.
  destruct (decide (sl_len s < sl_cap s)) as [Hlt|Hge].
  - rewrite (append1_in_place_run st s x Hwf Hok Hlt) in Hp |- *.
    destruct Hok as (Hl & Hc & Hcells).
    do 2 eexists; split; [reflexivity|]. cbn [heap out sl_len]. split; [|split; [done|split; [|done]]].
    + apply elems_snoc; [lia| |].
      * intros i Hi. unfold lookup_total, map_lookup_total. rewrite lookup_insert_ne by lia. done.
      * unfold lookup_total, map_lookup_total. by rewrite lookup_insert_eq.
    + split; [simpl; lia|]. split; [simpl; lia|]. intros i Hi. simpl in Hi |- *.
      rewrite lookup_insert. case_decide; [by eexists | apply Hcells; lia].
  - destruct Hcase as [|Hg]; [lia|].
    destruct (grow_cap (sl_len s + 1) (sl_cap s)) as [k|] eqn:Hk; [|done].
    assert (Heq : sl_len s = sl_cap s) by (destruct Hok; lia).
    destruct (append1_grow_elems st s x k Hwf Hok Heq Hmax Hk) as (st' & Hrun & He & _ & Hok' & Ho).
    rewrite Hrun in Hp. do 2 eexists; split; [exact Hrun|]. auto.
Qed.


End WithPolicy.

Lemma append1_spec_witness :
  (wf initial_state /\ slice_ok (heap initial_state) nil_slice /\ sl_len nil_slice < int_max /\
   (sl_len nil_slice < sl_cap nil_slice \/
    grow_cap (GrowPolicy := go_grow) (sl_len nil_slice + 1) (sl_cap nil_slice) <> None)) /\
  exists s' st', append1 (GP := go_grow) nil_slice 3 initial_state = Ok s' st' /\
    elems (heap st') s' = elems (heap initial_state) nil_slice ++ [3] /\
    sl_len s' = sl_len nil_slice + 1 /\ slice_ok (heap st') s' /\
    out st' = out initial_state /\ wf st'.
Proof.
  assert (H : wf initial_state /\ slice_ok (heap initial_state) nil_slice /\
    sl_len nil_slice < int_max /\
    (sl_len nil_slice < sl_cap nil_slice \/
     grow_cap (GrowPolicy := go_grow) (sl_len nil_slice + 1) (sl_cap nil_slice) <> None)).
  { split; [exact initial_state_wf|]. split.
    - split; [simpl; lia|]. split; [unfold int_max; simpl; lia|]. simpl; lia.
    - split; [unfold int_max; simpl; lia|]. right. vm_compute. discriminate. }
  split; [exact H|]. destruct H as (H1 & H2 & H3 & H4).
  exact (@append1_spec go_grow _ _ 3 H1 H2 H3 H4).
Defined.

Lemma append1_in_place_witness :
  (wf (mkState {[5 := 1]} 6 []) /\ slice_ok (heap (mkState {[5 := 1]} 6 [])) (mkSlice 5 0 1) /\
   sl_len (mkSlice 5 0 1) < sl_cap (mkSlice 5 0 1)) /\
  (append1 (GP := go_grow) (mkSlice 5 0 1) 9 (mkState {[5 := 1]} 6 []) =
   Ok (mkSlice 5 1 1) (mkState (<[5 + 0 := 9]> {[5 := 1]}) 6 []) /\
   forall t, sl_array t = 5 -> 0 < sl_len t ->
     elems (<[5 + 0 := 9]> {[5 := 1]}) t !! Z.to_nat 0 = Some 9).
Proof.
  assert (H : wf (mkState {[5 := 1]} 6 []) /\
    slice_ok (heap (mkState {[5 := 1]} 6 [])) (mkSlice 5 0 1) /\
    sl_len (mkSlice 5 0 1) < sl_cap (mkSlice 5 0 1)).
  { split; [|split].
    - split; simpl; [lia|]. intros a [v Hv]. apply lookup_singleton_Some in Hv. lia.
    - split; [simpl; lia|]. split; [unfold int_max; simpl; lia|].
      intros i Hi. simpl in *. replace i with 0 by lia. simplify_map_eq. by eexists.
    - simpl. lia. }
  split; [exact H|]. destruct H as (H1 & H2 & H3).
  exact (@append1_in_place go_grow _ _ 9 H1 H2 H3).
Defined.

Lemma append1_grow_witness :
  (wf (mkState {[5 := 7]} 6 []) /\ slice_ok (heap (mkState {[5 := 7]} 6 [])) (mkSlice 5 1 1) /\
   sl_len (mkSlice 5 1 1) = sl_cap (mkSlice 5 1 1) /\ sl_len (mkSlice 5 1 1) < int_max /\
   grow_cap (GrowPolicy := go_grow) (sl_len (mkSlice 5 1 1) + 1) (sl_cap (mkSlice 5 1 1)) = Some 2) /\
  exists st', append1 (GP := go_grow) (mkSlice 5 1 1) 8 (mkState {[5 := 7]} 6 []) =
    Ok (mkSlice (next (mkState {[5 := 7]} 6 [])) (sl_len (mkSlice 5 1 1) + 1) 2) st' /\
    elems (heap st') (mkSlice (next (mkState {[5 := 7]} 6 [])) (sl_len (mkSlice 5 1 1) + 1) 2) =
      elems (heap (mkState {[5 := 7]} 6 [])) (mkSlice 5 1 1) ++ [8] /\
    slice_ok (heap st') (mkSlice (next (mkState {[5 := 7]} 6 [])) (sl_len (mkSlice 5 1 1) + 1) 2) /\
    out st' = out (mkState {[5 := 7]} 6 []) /\
    forall t, slice_ok (heap (mkState {[5 := 7]} 6 [])) t ->
      elems (heap st') t = elems (heap (mkState {[5 := 7]} 6 [])) t.
Proof.
  assert (H : wf (mkState {[5 := 7]} 6 []) /\
    slice_ok (heap (mkState {[5 := 7]} 6 [])) (mkSlice 5 1 1) /\
    sl_len (mkSlice 5 1 1) = sl_cap (mkSlice 5 1 1) /\ sl_len (mkSlice 5 1 1) < int_max /\
    grow_cap (GrowPolicy := go_grow) (sl_len (mkSlice 5 1 1) + 1) (sl_cap (mkSlice 5 1 1)) = Some 2).
  { split; [|split; [|split; [reflexivity|split]]].
    - split; simpl; [lia|]. intros a [v Hv]. apply lookup_singleton_Some in Hv. lia.
    - split; [simpl; lia|]. split; [unfold int_max; simpl; lia|].
      intros i Hi. simpl in *. replace i with 0 by lia. simplify_map_eq. by eexists.
    - unfold int_max; simpl; lia.
    - vm_compute. reflexivity. }
  split; [exact H|]. destruct H as (H1 & H2 & H3 & H4 & H5).
  exact (@append1_grow go_grow _ _ 8 2 H1 H2 H3 H4 H5).
Defined.
