(* ===== verification/SortSlice.v ===== *)
(** * SortSlice: [sort.Slice] on a [[]int] with a [<] closure

    slices.go sorts [numbers] with
    [sort.Slice(numbers, func(i, j int) bool { return numbers[i] < numbers[j] })].
    Go's sort package (sort/slice.go, sort/zsortfunc.go) builds a
    [lessSwap] record from the closure and from [reflectlite.Swapper(x)],
    and runs [pdqsort_func(data, 0, length, bits.Len(uint(length)))], which
    for at most 12 elements is [insertionSort_func]:

<<
    for i := a + 1; i < b; i++ {
        for j := i; j > a && data.Less(j, j-1); j-- {
            data.Swap(j, j-1)
        }
    }
>>

    The file holds three levels:
    - [pinner]/[pinsertion] — the same two loops on a list, with the
      list's own [<] and element swap (the pure reference);
    - the monadic [insertionSort_func] over an abstract [lessSwap] whose
      operations satisfy [LessSwapSpec] (they read and swap the elements a
      [view] of the state shows): it refines [pinsertion];
    - the instance for slices.go: the closure [numbers[i] < numbers[j]]
      (indexing with bounds checks) and the [[]int] swapper.

    The pure reference sorts: its result is sorted, a permutation of its
    input, and equal to stdpp's [merge_sort] (sorted permutations of
    integers are unique), so the Go routine agrees with any correct sort.
    Inputs of more than 12 elements take pdqsort's partitioning path,
    which is not modelled: it is a parameter of [sort_Slice]. *)

From S2P Require Import Prelude GoFmt Mem Growslice Slices.

Local Open Scope Z_scope.
Local Open Scope go_scope.

(** ** The pure reference *)

Definition list_swap (l : list Z) (i j : nat) : list Z :=
  <[i := l !!! j]> (<[j := l !!! i]> l).

(** [for j := i; j > a && less(j, j-1); j-- { swap(j, j-1) }], with
    [i = a + k]. *)
Fixpoint pinner (l : list Z) (a k : nat) : list Z :=
  match k with
  | O => l
  | S k' =>
      let j := (a + S k')%nat in
      if bool_decide (l !!! j < l !!! (j - 1)%nat)
      then pinner (list_swap l j (j - 1)) a k'
      else l
  end.

(** [for i := a + 1; i < b; i++ { ... }] *)
Definition pinsertion (l : list Z) (a b : nat) : list Z :=
  foldl (fun l i => pinner l a (i - a)) l (seq (S a) (b - S a)).

(** Insertion from the right of [x] into [ys]: [x] moves left past every
    element greater than it. *)
Fixpoint ins_rev (x : Z) (r : list Z) : list Z :=
  match r with
  | [] => [x]
  | y :: r' => if bool_decide (x < y) then y :: ins_rev x r' else x :: r
  end.

Definition ins_r (x : Z) (ys : list Z) : list Z := rev (ins_rev x (rev ys)).

Definition isort_r (l : list Z) : list Z := foldl (fun acc x => ins_r x acc) [] l.

(** ** Lemmas on the reference *)

Lemma ins_r_nil x : ins_r x [] = [x].
Proof. reflexivity. Qed.

Lemma ins_r_snoc x ys y :
  ins_r x (ys ++ [y]) = if bool_decide (x < y) then ins_r x ys ++ [y] else ys ++ [y; x].
Proof.
  unfold ins_r. rewrite rev_unit. simpl.
  case_bool_decide; simpl; [done|]. by rewrite rev_involutive, <- app_assoc.
Qed.

Lemma list_swap_middle ys y x post :
  list_swap (ys ++ y :: x :: post) (S (length ys)) (length ys) = ys ++ x :: y :: post.
Proof.
  unfold list_swap. rewrite !list_lookup_total_alt.
  rewrite !lookup_app_r by lia.
  replace (S (length ys) - length ys)%nat with 1%nat by lia. rewrite Nat.sub_diag.
  rewrite !insert_app_r_alt by lia.
  replace (S (length ys) - length ys)%nat with 1%nat by lia. rewrite Nat.sub_diag.
  reflexivity.
Qed.

(** One pass of the inner loop inserts the element at position [k] into
    the [k] elements before it. *)
Lemma pinner_ins_r ys x post :
  pinner (ys ++ x :: post) 0 (length ys) = ins_r x ys ++ post.
Proof.
  revert x post. induction ys as [|y ys IH] using rev_ind; intros x post; [done|].
  rewrite length_app, Nat.add_comm. simpl. rewrite ins_r_snoc, <- app_assoc. simpl.
  rewrite !list_lookup_total_alt, !lookup_app_r by lia.
  replace (S (length ys) - length ys)%nat with 1%nat by lia.
  rewrite Nat.sub_0_r, Nat.sub_diag. simpl.
  case_bool_decide.
  - rewrite list_swap_middle, IH, <- app_assoc. reflexivity.
  - rewrite <- app_assoc. reflexivity.
Qed.

Lemma length_ins_r x ys : length (ins_r x ys) = S (length ys).
Proof.
  unfold ins_r. rewrite length_rev.
  assert (H : forall r, length (ins_rev x r) = S (length r)).
  { induction r as [|y r IH]; simpl; [done|]. case_bool_decide; simpl; lia. }
  by rewrite H, length_rev.
Qed.

Lemma isort_r_snoc l x : isort_r (l ++ [x]) = ins_r x (isort_r l).
Proof. unfold isort_r. by rewrite foldl_app. Qed.

Lemma ins_r_perm x ys : ins_r x ys ≡ₚ ys ++ [x].
Proof.
  induction ys as [|y ys IH] using rev_ind; [done|].
  rewrite ins_r_snoc. case_bool_decide.
  - rewrite IH, <- !app_assoc. simpl. apply Permutation_app_head. by constructor.
  - by rewrite <- app_assoc.
Qed.

Lemma length_isort_r l : length (isort_r l) = length l.
Proof.
  induction l as [|x l IH] using rev_ind; [done|].
  by rewrite isort_r_snoc, length_ins_r, IH, length_app, Nat.add_comm.
Qed.

Lemma isort_r_perm l : isort_r l ≡ₚ l.
Proof.
  induction l as [|x l IH] using rev_ind; [done|].
  by rewrite isort_r_snoc, ins_r_perm, IH.
Qed.

Lemma ins_r_sorted x ys :
  StronglySorted Z.le ys -> StronglySorted Z.le (ins_r x ys).
Proof.
  induction ys as [|y ys IH] using rev_ind; intros Hs.
  { repeat constructor. }
  rewrite ins_r_snoc. apply StronglySorted_app in Hs as (Hle & Hys & Hy).
  case_bool_decide as Hxy.
  - apply StronglySorted_app_2; [|by apply IH|done].
    intros z1 z2 Hz1 Hz2. apply list_elem_of_singleton in Hz2 as ->.
    rewrite ins_r_perm, elem_of_app, list_elem_of_singleton in Hz1.
    destruct Hz1 as [Hz1 | ->]; [apply Hle; [done | by left] | lia].
  - replace (ys ++ [y; x]) with ((ys ++ [y]) ++ [x]) by (by rewrite <- app_assoc).
    apply StronglySorted_app_2.
    + intros z1 z2 Hz1 Hz2. apply list_elem_of_singleton in Hz2 as ->.
      rewrite elem_of_app, list_elem_of_singleton in Hz1.
      destruct Hz1 as [Hz1 | ->]; [|lia].
      pose proof (Hle z1 y Hz1 ltac:(by left)). lia.
    + apply StronglySorted_app_2; [done | done | done].
    + repeat constructor.
Qed.

Lemma isort_r_sorted l : StronglySorted Z.le (isort_r l).
Proof.
  induction l as [|x l IH] using rev_ind; [constructor|].
  rewrite isort_r_snoc. by apply ins_r_sorted.
Qed.

(** The outer loop keeps a sorted prefix: after the passes for
    [i = 1 .. k] the first [k + 1] elements are sorted and the rest is
    untouched. *)
Lemma pinsertion_prefix l k :
  (S k <= length l)%nat ->
  foldl (fun l i => pinner l 0 (i - 0)) l (seq 1 k) = isort_r (take (S k) l) ++ drop (S k) l.
Proof.
  induction k as [|k IH]; intros Hk.
  - destruct l as [|x l]; simpl in *; [lia|]. done.
  - rewrite seq_S, foldl_app, IH by lia. cbn [foldl].
    destruct (drop (S k) l) as [|x post] eqn:Hd.
    { apply (f_equal length) in Hd. rewrite length_drop in Hd. simpl in Hd. lia. }
    rewrite Nat.sub_0_r.
    replace (1 + k)%nat with (length (isort_r (take (S k) l)))
      by (rewrite length_isort_r, length_take; lia).
    rewrite pinner_ins_r.
    assert (Hx : l !! S k = Some x).
    { rewrite <- (take_drop (S k) l), Hd, lookup_app_r by (rewrite length_take; lia).
      rewrite length_take, Nat.min_l, Nat.sub_diag by lia. done. }
    rewrite (take_S_r l (S k) x Hx).
    rewrite isort_r_snoc. f_equal.
    replace (S (S k)) with (S k + 1)%nat by lia. rewrite <- drop_drop, Hd. done.
Qed.

(** The pure reference applied to a whole list is insertion sort. *)
Lemma pinsertion_isort_r l : pinsertion l 0 (length l) = isort_r l.
Proof.
  unfold pinsertion. destruct l as [|x l']; [done|].
  remember (x :: l') as l eqn:Hl.
  replace (length l - 1)%nat with (length l - 1)%nat by done.
  rewrite (pinsertion_prefix l (length l - 1)) by (subst; simpl; lia).
  replace (S (length l - 1)) with (length l) by (subst; simpl; lia).
  rewrite firstn_all, drop_all. apply app_nil_r.
Qed.

(** ** Go's routine, over the [lessSwap] interface *)

(** [type lessSwap struct { Less func(i, j int) bool; Swap func(i, j int) }] *)
Record lessSwap := mkLessSwap { Less : Z -> Z -> M bool; Swap : Z -> Z -> M unit }.

(** The inner loop of [insertionSort_func], from [j = a + k] down. *)
Fixpoint insertion_inner (data : lessSwap) (a : Z) (k : nat) : M unit :=
  match k with
  | O => ret tt
  | S k' =>
      let j := a + Z.of_nat (S k') in
      b <- Less data j (j - 1) ;;
      if b then Swap data j (j - 1) ;; insertion_inner data a k' else ret tt
  end.

(** [insertionSort_func(data, a, b)] of sort/zsortfunc.go. *)
Definition insertionSort_func (data : lessSwap) (a b : Z) : M unit :=
  forM_ (seqZ (a + 1) (b - (a + 1))) (fun i => insertion_inner data a (Z.to_nat (i - a))).

(** [bits.Len(uint(n))] for [n >= 0]. *)
Definition bits_Len (n : Z) : Z := if n =? 0 then 0 else Z.log2 n + 1.

Definition maxInsertion : Z := 12.

(** [reflectlite.Swapper(x)] for a [[]int]: panics for a slice of length
    0, or of length 1 unless [i = j = 0]; otherwise
    [is[i], is[j] = is[j], is[i]] (right-hand sides read first, then the
    two stores from left to right, each index bounds-checked). *)
Definition swapper (s : slice) (i j : Z) : M unit :=
  if sl_len s =? 0 then throw ReflectSliceIndexOutOfRange
  else if sl_len s =? 1 then
    (if (i =? 0) && (j =? 0) then ret tt else throw ReflectSliceIndexOutOfRange)
  else
    vj <- index s j ;;
    vi <- index s i ;;
    index_set s i vj ;;
    index_set s j vi.

(** The closure of slices.go lines 17-19:
    [func(i, j int) bool { return numbers[i] < numbers[j] }]. *)
Definition less_numbers (numbers : slice) (i j : Z) : M bool :=
  vi <- index numbers i ;;
  vj <- index numbers j ;;
  ret (vi <? vj).

Section Pdqsort.
(** pdqsort's path for more than [maxInsertion] elements (choosing a
    pivot, partitioning, recursing, falling back to heapsort) is not
    modelled: it is a parameter. *)
Context (pdqsort_large : lessSwap -> Z -> Z -> Z -> M unit).

(** [pdqsort_func(data, a, b, limit)]: insertion sort for short ranges. *)
Definition pdqsort_func (data : lessSwap) (a b limit : Z) : M unit :=
  let length := b - a in
  if length <=? maxInsertion then insertionSort_func data a b
  else pdqsort_large data a b limit.

(** [sort.Slice(x, less)] on a [[]int] header. *)
Definition sort_Slice (x : slice) (less : Z -> Z -> M bool) : M unit :=
  let length := sl_len x in
  let limit := bits_Len length in
  pdqsort_func (mkLessSwap less (swapper x)) 0 length limit.

End Pdqsort.

(** ** The interface contract and the refinement *)

(** What [insertionSort_func] needs of [data]: [Less] and [Swap] compare
    and exchange the elements of a list the state shows ([view]), within
    an invariant [inv] of the state, and print nothing. *)
Record LessSwapSpec (data : lessSwap) (view : GoState -> list Z) (inv : GoState -> Prop) :
  Prop := {
  ls_less : forall st (i j : nat), inv st ->
    (i < length (view st))%nat -> (j < length (view st))%nat ->
    Less data (Z.of_nat i) (Z.of_nat j) st =
    Ok (bool_decide (view st !!! i < view st !!! j)) st;
  ls_swap : forall st (i j : nat), inv st ->
    (i < length (view st))%nat -> (j < length (view st))%nat ->
    exists st', Swap data (Z.of_nat i) (Z.of_nat j) st = Ok tt st' /\
      inv st' /\ view st' = list_swap (view st) i j /\ out st' = out st
}.

Lemma length_list_swap l i j : length (list_swap l i j) = length l.
Proof. unfold list_swap. by rewrite !length_insert. Qed.

Lemma length_pinner l a k : length (pinner l a k) = length l.
Proof.
  revert l. induction k as [|k IH]; intros l; simpl; [done|].
  case_bool_decide; [by rewrite IH, length_list_swap | done].
Qed.

Lemma seqZ_of_nat (m n : nat) : seqZ (Z.of_nat m) (Z.of_nat n) = map Z.of_nat (seq m n).
Proof.
  apply list_eq. intros k. rewrite list_lookup_fmap.
  destruct (decide (k < n)%nat).
  - rewrite lookup_seqZ_lt, lookup_seq_lt by lia. simpl. f_equal. lia.
  - rewrite lookup_seqZ_ge, lookup_seq_ge by lia. done.
Qed.

Section Refinement.
Context (data : lessSwap) (view : GoState -> list Z) (inv : GoState -> Prop).
Context (Hspec : LessSwapSpec data view inv).

Lemma insertion_inner_refines (a k : nat) st :
  inv st -> (a + k < length (view st))%nat ->
  exists st', insertion_inner data (Z.of_nat a) k st = Ok tt st' /\
    inv st' /\ view st' = pinner (view st) a k /\ out st' = out st.
Proof.
  revert st. induction k as [|k IH]; intros st Hinv Hlen.
  { exists st. done. }
  cbn [insertion_inner pinner].
  replace (Z.of_nat a + Z.of_nat (S k)) with (Z.of_nat (a + S k)) by lia.
  replace (Z.of_nat (a + S k) - 1) with (Z.of_nat (a + S k - 1)) by lia.
  rewrite (bind_Ok _ _ _ _ _ (ls_less _ _ _ Hspec st (a + S k) (a + S k - 1) Hinv ltac:(lia) ltac:(lia))).
  case_bool_decide.
  - destruct (ls_swap _ _ _ Hspec st (a + S k) (a + S k - 1) Hinv ltac:(lia) ltac:(lia))
      as (st1 & Hsw & Hinv1 & Hv1 & Ho1).
    rewrite (bind_Ok _ _ _ _ _ Hsw).
    destruct (IH st1) as (st2 & Hrun & Hinv2 & Hv2 & Ho2);
      [done | rewrite Hv1, length_list_swap; lia |].
    exists st2. rewrite Hrun, Hv2, Hv1, Ho2, Ho1. done.
  - exists st. done.
Qed.

Lemma insertion_outer_refines (a : nat) (idxs : list nat) st :
  inv st -> (forall i, i ∈ idxs -> a <= i < length (view st))%nat ->
  exists st', forM_ (map Z.of_nat idxs)
      (fun i => insertion_inner data (Z.of_nat a) (Z.to_nat (i - Z.of_nat a))) st = Ok tt st' /\
    inv st' /\ view st' = foldl (fun l i => pinner l a (i - a)) (view st) idxs /\ out st' = out st.
Proof.
  revert st. induction idxs as [|i idxs IH]; intros st Hinv His.
  { exists st. done. }
  cbn [map forM_ foldl].
  destruct (insertion_inner_refines a (i - a) st Hinv) as (st1 & Hrun & Hinv1 & Hv1 & Ho1).
  { pose proof (His i ltac:(by left)). lia. }
  replace (Z.to_nat (Z.of_nat i - Z.of_nat a)) with (i - a)%nat
    by (pose proof (His i ltac:(by left)); lia).
  rewrite (bind_Ok _ _ _ _ _ Hrun).
  destruct (IH st1) as (st2 & Hrun2 & Hinv2 & Hv2 & Ho2); [done| |].
  { intros j Hj. rewrite Hv1, length_pinner. apply His. by right. }
  exists st2. rewrite Hrun2, Hv2, Hv1, Ho2, Ho1. done.
Qed.

(** The run of [insertionSort_func] on the view. *)
Lemma insertionSort_func_run (a b : nat) st :
  inv st -> (a <= b <= length (view st))%nat ->
  exists st', insertionSort_func data (Z.of_nat a) (Z.of_nat b) st = Ok tt st' /\
    inv st' /\ view st' = pinsertion (view st) a b /\ out st' = out st.
Proof.
  intros Hinv Hab. unfold insertionSort_func, pinsertion.
  destruct (decide (a < b)%nat) as [Hlt|Hge].
  - replace (Z.of_nat a + 1) with (Z.of_nat (S a)) by lia.
    replace (Z.of_nat b - Z.of_nat (S a)) with (Z.of_nat (b - S a)) by lia.
    rewrite seqZ_of_nat. apply insertion_outer_refines; [done|].
    intros i Hi. apply elem_of_seq in Hi. lia.
  - rewrite seqZ_nil by lia. replace (b - S a)%nat with 0%nat by lia.
    exists st. done.
Qed.

(** C7: [insertionSort_func(data, a, b)] refines the pure two-loop
    reference [pinsertion]: for any [Less]/[Swap] meeting the contract, it
    returns normally, keeps the invariant, prints nothing, and leaves the
    view equal to [pinsertion] of the view it started from. *)
Theorem insertionSort_func_refines (a b : nat) st :
  inv st -> (a <= b <= length (view st))%nat ->
  exists st', insertionSort_func data (Z.of_nat a) (Z.of_nat b) st = Ok tt st' /\
    inv st' /\ view st' = pinsertion (view st) a b /\ out st' = out st.
Proof. apply insertionSort_func_run. Qed.

End Refinement.

(** ** The instance of slices.go: the [<] closure and the [[]int] swapper *)

Lemma list_swap_self l i : list_swap l i i = l.
Proof.
  unfold list_swap. destruct (decide (i < length l)%nat).
  - rewrite list_insert_insert_eq. apply list_insert_id.
    rewrite list_lookup_total_alt. destruct (lookup_lt_is_Some_2 l i) as [v Hv]; [done|].
    by rewrite Hv.
  - rewrite !list_insert_ge by (rewrite ?length_insert; lia). done.
Qed.

Lemma slice_ok_insert h s a v :
  slice_ok h s -> is_Some (h !! a) -> slice_ok (<[a := v]> h) s.
Proof.
  intros (Hl & Hc & Hcells) Ha. split; [done|]. split; [done|].
  intros i Hi. rewrite lookup_insert. case_decide; [by eexists | by apply Hcells].
Qed.

Lemma less_numbers_Ok st s (i j : nat) :
  wf st -> slice_ok (heap st) s ->
  (i < length (elems (heap st) s))%nat -> (j < length (elems (heap st) s))%nat ->
  less_numbers s (Z.of_nat i) (Z.of_nat j) st =
  Ok (bool_decide (elems (heap st) s !!! i < elems (heap st) s !!! j)) st.
Proof.
  intros Hwf Hok Hi Hj. rewrite elems_length in Hi, Hj.
  unfold less_numbers.
  rewrite (bind_Ok _ _ _ _ _ (index_Ok st s (Z.of_nat i) Hwf Hok ltac:(lia))).
  rewrite (bind_Ok _ _ _ _ _ (index_Ok st s (Z.of_nat j) Hwf Hok ltac:(lia))).
  rewrite !elems_lookup_total by lia. unfold ret. f_equal.
  match goal with |- (?x <? ?y) = _ => destruct (Z.ltb_spec0 x y) end;
    case_bool_decide; done || lia.
Qed.

Lemma swapper_Ok st s (i j : nat) :
  wf st -> slice_ok (heap st) s ->
  (i < length (elems (heap st) s))%nat -> (j < length (elems (heap st) s))%nat ->
  exists st', swapper s (Z.of_nat i) (Z.of_nat j) st = Ok tt st' /\
    (wf st' /\ slice_ok (heap st') s) /\
    elems (heap st') s = list_swap (elems (heap st) s) i j /\ out st' = out st.
Proof.
  intros Hwf Hok Hi Hj. pose proof Hok as (Hl & Hc & Hcells).
  rewrite elems_length in Hi, Hj. unfold swapper.
  go_case; [lia|]. go_case.
  { assert (i = 0%nat /\ j = 0%nat) as [-> ->] by lia. simpl.
    exists st. by rewrite list_swap_self. }
  rewrite (bind_Ok _ _ _ _ _ (index_Ok st s (Z.of_nat j) Hwf Hok ltac:(lia))).
  rewrite (bind_Ok _ _ _ _ _ (index_Ok st s (Z.of_nat i) Hwf Hok ltac:(lia))).
  rewrite (bind_Ok _ _ _ _ _ (index_set_Ok st s (Z.of_nat i) _ Hwf Hok ltac:(lia))).
  set (st1 := mkState _ _ _).
  destruct (slice_cell st s (Z.of_nat i) Hwf Hok ltac:(lia)) as (vi & Hvi & _).
  destruct (slice_cell st s (Z.of_nat j) Hwf Hok ltac:(lia)) as (vj & Hvj & _).
  assert (Hwf1 : wf st1) by (apply wf_insert_existing; [done | by eexists]).
  assert (Hok1 : slice_ok (heap st1) s) by (apply slice_ok_insert; [done | by eexists]).
  rewrite (index_set_Ok st1 s (Z.of_nat j) _ Hwf1 Hok1 ltac:(lia)).
  assert (Hj1 : is_Some (heap st1 !! (sl_array s + Z.of_nat j))).
  { simpl. rewrite lookup_insert. case_decide; [by eexists | by rewrite Hvj]. }
  eexists; split; [reflexivity|]. split; [split|split; [|reflexivity]].
  - by apply (wf_insert_existing st1).
  - by apply slice_ok_insert.
  - unfold st1. cbn [heap]. rewrite !elems_insert by lia. rewrite !Nat2Z.id.
    rewrite <- !elems_lookup_total by lia. unfold list_swap.
    destruct (decide (i = j)) as [->|Hne]; [done|].
    by rewrite list_insert_insert_ne by done.
Qed.

(** The closure and the swapper of slices.go meet the [lessSwap]
    contract, with the slice's elements as the view. *)
Lemma numbers_lessSwap_spec s :
  LessSwapSpec (mkLessSwap (less_numbers s) (swapper s))
    (fun st => elems (heap st) s) (fun st => wf st /\ slice_ok (heap st) s).
Proof.
  split.
  - intros st i j [Hwf Hok] Hi Hj. by apply less_numbers_Ok.
  - intros st i j [Hwf Hok] Hi Hj. by apply swapper_Ok.
Qed.

Lemma isort_r_merge_sort l : isort_r l = merge_sort Z.le l.
Proof.
  apply (Sorted_unique Z.le).
  - apply StronglySorted_Sorted, isort_r_sorted.
  - apply Sorted_merge_sort; apply _.
  - by rewrite isort_r_perm, merge_sort_Permutation.
Qed.

(** [sort.Slice] on a short [[]int] with the [<] closure, as used by callers. *)
Lemma sort_Slice_run pdq st s :
  wf st -> slice_ok (heap st) s -> sl_len s <= maxInsertion ->
  exists st', sort_Slice pdq s (less_numbers s) st = Ok tt st' /\
    elems (heap st') s = merge_sort Z.le (elems (heap st) s) /\
    Sorted Z.le (elems (heap st') s) /\ elems (heap st') s ≡ₚ elems (heap st) s /\
    wf st' /\ slice_ok (heap st') s /\ out st' = out st.
Proof.
  intros Hwf Hok Hmax. pose proof Hok as (Hl & _ & _).
  unfold sort_Slice, pdqsort_func. go_case; [|lia].
  replace (sl_len s - 0) with (sl_len s) by lia.
  destruct (insertionSort_func_run _ _ _ (numbers_lessSwap_spec s) 0
              (length (elems (heap st) s)) st (conj Hwf Hok)) as (st' & Hrun & [Hwf' Hok'] & Hv & Ho);
    [lia|].
  rewrite elems_length, Z2Nat.id in Hrun by lia. cbn [Less] in Hrun.
  exists st'. split; [exact Hrun|]. rewrite Hv, pinsertion_isort_r, isort_r_merge_sort.
  split; [done|]. split; [apply Sorted_merge_sort; apply _|].
  split; [apply merge_sort_Permutation|]. done.
Qed.

(** C6: [sort.Slice] with slices.go's closure on a valid slice of at
    most 12 elements returns normally, prints nothing, keeps the heap
    well formed, and leaves the slice's elements equal to stdpp's
    [merge_sort] of the elements it had: sorted in ascending order and a
    permutation of them.  (The path for more than 12 elements is not
    modelled: it is the parameter [pdq].) *)
Theorem sort_Slice_sorts pdq st s :
  wf st -> slice_ok (heap st) s -> sl_len s <= maxInsertion ->
  exists st', sort_Slice pdq s (less_numbers s) st = Ok tt st' /\
    elems (heap st') s = merge_sort Z.le (elems (heap st) s) /\
    Sorted Z.le (elems (heap st') s) /\ elems (heap st') s ≡ₚ elems (heap st) s /\
    wf st' /\ slice_ok (heap st') s /\ out st' = out st.
Proof. apply sort_Slice_run. Qed.

Lemma insertionSort_func_refines_witness :
  (LessSwapSpec (mkLessSwap (less_numbers (mkSlice 1%Z 3%Z 3%Z)) (swapper (mkSlice 1%Z 3%Z 3%Z)))
     (fun st => elems (heap st) (mkSlice 1%Z 3%Z 3%Z))
     (fun st => wf st /\ slice_ok (heap st) (mkSlice 1%Z 3%Z 3%Z)) /\
   (wf (mkState {[1%Z := 3%Z; 2%Z := 1%Z; 3%Z := 2%Z]} 4%Z []) /\
    slice_ok (heap (mkState {[1%Z := 3%Z; 2%Z := 1%Z; 3%Z := 2%Z]} 4%Z [])) (mkSlice 1%Z 3%Z 3%Z)) /\
   (0 <= 3 <= length (elems (heap (mkState {[1%Z := 3%Z; 2%Z := 1%Z; 3%Z := 2%Z]} 4%Z [])) (mkSlice 1%Z 3%Z 3%Z)))%nat) /\
  exists st', insertionSort_func (mkLessSwap (less_numbers (mkSlice 1%Z 3%Z 3%Z)) (swapper (mkSlice 1%Z 3%Z 3%Z)))
      (Z.of_nat 0) (Z.of_nat 3) (mkState {[1%Z := 3%Z; 2%Z := 1%Z; 3%Z := 2%Z]} 4%Z []) = Ok tt st' /\
    (wf st' /\ slice_ok (heap st') (mkSlice 1%Z 3%Z 3%Z)) /\
    elems (heap st') (mkSlice 1%Z 3%Z 3%Z) =
      pinsertion (elems (heap (mkState {[1%Z := 3%Z; 2%Z := 1%Z; 3%Z := 2%Z]} 4%Z [])) (mkSlice 1%Z 3%Z 3%Z)) 0 3 /\
    out st' = out (mkState {[1%Z := 3%Z; 2%Z := 1%Z; 3%Z := 2%Z]} 4%Z []).
Proof.
  assert (H : LessSwapSpec (mkLessSwap (less_numbers (mkSlice 1%Z 3%Z 3%Z)) (swapper (mkSlice 1%Z 3%Z 3%Z)))
     (fun st => elems (heap st) (mkSlice 1%Z 3%Z 3%Z))
     (fun st => wf st /\ slice_ok (heap st) (mkSlice 1%Z 3%Z 3%Z)) /\
   (wf (mkState {[1%Z := 3%Z; 2%Z := 1%Z; 3%Z := 2%Z]} 4%Z []) /\
    slice_ok (heap (mkState {[1%Z := 3%Z; 2%Z := 1%Z; 3%Z := 2%Z]} 4%Z [])) (mkSlice 1%Z 3%Z 3%Z)) /\
   (0 <= 3 <= length (elems (heap (mkState {[1%Z := 3%Z; 2%Z := 1%Z; 3%Z := 2%Z]} 4%Z [])) (mkSlice 1%Z 3%Z 3%Z)))%nat).
  { split; [apply numbers_lessSwap_spec|]. split; [split|].
    - apply wfb_wf. vm_compute. reflexivity.
    - apply slice_okb_ok. vm_compute. reflexivity.
    - vm_compute. lia. }
  split; [exact H|]. destruct H as (H1 & H2 & H3).
  exact (insertionSort_func_refines _ _ _ H1 0 3 _ H2 H3).
Defined.

Lemma sort_Slice_sorts_witness :
  (wf (mkState {[1%Z := 3%Z; 2%Z := 1%Z; 3%Z := 2%Z]} 4%Z []) /\
   slice_ok (heap (mkState {[1%Z := 3%Z; 2%Z := 1%Z; 3%Z := 2%Z]} 4%Z [])) (mkSlice 1%Z 3%Z 3%Z) /\
   sl_len (mkSlice 1%Z 3%Z 3%Z) <= maxInsertion) /\
  exists st', sort_Slice (fun _ _ _ _ => ret tt) (mkSlice 1%Z 3%Z 3%Z) (less_numbers (mkSlice 1%Z 3%Z 3%Z))
      (mkState {[1%Z := 3%Z; 2%Z := 1%Z; 3%Z := 2%Z]} 4%Z []) = Ok tt st' /\
    elems (heap st') (mkSlice 1%Z 3%Z 3%Z) =
      merge_sort Z.le (elems (heap (mkState {[1%Z := 3%Z; 2%Z := 1%Z; 3%Z := 2%Z]} 4%Z [])) (mkSlice 1%Z 3%Z 3%Z)) /\
    Sorted Z.le (elems (heap st') (mkSlice 1%Z 3%Z 3%Z)) /\
    elems (heap st') (mkSlice 1%Z 3%Z 3%Z) ≡ₚ elems (heap (mkState {[1%Z := 3%Z; 2%Z := 1%Z; 3%Z := 2%Z]} 4%Z [])) (mkSlice 1%Z 3%Z 3%Z) /\
    wf st' /\ slice_ok (heap st') (mkSlice 1%Z 3%Z 3%Z) /\ out st' = out (mkState {[1%Z := 3%Z; 2%Z := 1%Z; 3%Z := 2%Z]} 4%Z []).
Proof.
  assert (H : wf (mkState {[1%Z := 3%Z; 2%Z := 1%Z; 3%Z := 2%Z]} 4%Z []) /\
   slice_ok (heap (mkState {[1%Z := 3%Z; 2%Z := 1%Z; 3%Z := 2%Z]} 4%Z [])) (mkSlice 1%Z 3%Z 3%Z) /\
   sl_len (mkSlice 1%Z 3%Z 3%Z) <= maxInsertion).
  { split; [apply wfb_wf; vm_compute; reflexivity|].
    split; [apply slice_okb_ok; vm_compute; reflexivity|]. unfold maxInsertion; simpl; lia. }
  split; [exact H|]. destruct H as (H1 & H2 & H3).
  exact (sort_Slice_sorts _ _ _ H1 H2 H3).
Defined.
