(* ===== verification/SlicesDemo.v ===== *)
(** * SlicesDemo: [UnderstandSlices] of src/basics/slices.go

    The function appends 3, 1 and 2 to a nil slice (three growths with
    Go's policy: capacities 1, 2, 4), logs it, sorts it with
    [sort.Slice] and the closure [numbers[i] < numbers[j]], logs it again,
    logs a nil slice, builds [[]int{5, 3, 2, 4, 1}], logs it and logs the
    re-slicings [[0:2]] and [[1:3]].  Each statement is one step of the
    model below, on the runtime of [Slices.v] and [SortSlice.v] with
    [Growslice.go_grow].

    The theorem [UnderstandSlices_spec] gives the six lines the function
    logs, from any well-formed state: the appends keep the order of
    insertion, the sort gives [[1 2 3]], the nil slice prints as [[]]
    (after the two spaces that the operand's trailing space and
    [Println]'s separator make), and the re-slicings print
    [[5 3]] and [[3 2]]. *)

From S2P Require Import Prelude GoFmt Mem Growslice Slices SortSlice.

Local Open Scope string_scope.
Local Open Scope Z_scope.
Local Open Scope go_scope.

Section UnderstandSlices.
(** The unmodelled pdqsort path for more than 12 elements (never taken:
    [numbers] has 3). *)
Context (pdq : lessSwap -> Z -> Z -> Z -> M unit).

(** slices.go lines 8-34. *)
Definition UnderstandSlices : M unit :=
  let numbers := nil_slice in
  numbers <- append1 (GP := go_grow) numbers 3 ;;
  numbers <- append1 (GP := go_grow) numbers 1 ;;
  numbers <- append1 (GP := go_grow) numbers 2 ;;
  v <- slice_val numbers ;;
  log_Println [GString "Slice values are"; v] ;;
  sort_Slice pdq numbers (less_numbers numbers) ;;
  v <- slice_val numbers ;;
  log_Println [GString "Slice values after sorting in ascending order are"; v] ;;
  let nilSlice := nil_slice in
  v <- slice_val nilSlice ;;
  log_Println [GString "Nil Slice is "; v] ;;
  newNumbers <- slice_lit [5; 3; 2; 4; 1] ;;
  v <- slice_val newNumbers ;;
  log_Println [GString "New Slice values are"; v] ;;
  s1 <- reslice newNumbers 0 2 ;;
  v <- slice_val s1 ;;
  log_Println [v] ;;
  s2 <- reslice newNumbers 1 3 ;;
  v <- slice_val s2 ;;
  log_Println [v].

End UnderstandSlices.

(** The six lines [UnderstandSlices] logs. *)
Definition slices_output : list event :=
  map EvLog
    [ "Slice values are [3 1 2]" ++ String "010" "";
      "Slice values after sorting in ascending order are [1 2 3]" ++ String "010" "";
      "Nil Slice is  []" ++ String "010" "";
      "New Slice values are [5 3 2 4 1]" ++ String "010" "";
      "[5 3]" ++ String "010" "";
      "[3 2]" ++ String "010" "" ].

(** ** Lemmas *)

Lemma slice_ok_nil h : slice_ok h nil_slice.
Proof. split; [simpl; lia|]. split; [unfold int_max; simpl; lia|]. simpl; lia. Qed.

Lemma elems_nil h : elems h nil_slice = [].
Proof. reflexivity. Qed.

Lemma bind_slice_val {B} s (k : gval -> M B) st :
  bind (slice_val s) k st = k (GIntSlice (elems (heap st) s)) st.
Proof. reflexivity. Qed.

(** One [append] that grows, with Go's policy, as used three times. *)
Lemma append_grow_step st s x k :
  wf st -> slice_ok (heap st) s -> sl_len s = sl_cap s -> sl_len s < int_max ->
  go_grow_cap (sl_len s + 1) (sl_cap s) = Some k ->
  exists st', append1 (GP := go_grow) s x st = Ok (mkSlice (next st) (sl_len s + 1) k) st' /\
    elems (heap st') (mkSlice (next st) (sl_len s + 1) k) = (elems (heap st) s ++ [x])%list /\
    slice_ok (heap st') (mkSlice (next st) (sl_len s + 1) k) /\ out st' = out st /\ wf st'.
Proof.
  intros Hwf Hok Heq Hmax Hg.
  destruct (@append1_grow_elems go_grow st s x k Hwf Hok Heq Hmax Hg) as (st' & Hrun & He & _ & Hok' & Ho).
  pose proof (@append1_preserves go_grow s x st Hwf) as Hp. rewrite Hrun in Hp.
  exists st'. done.
Qed.

(** The run of [UnderstandSlices], as used by [main]. *)
Lemma UnderstandSlices_run pdq st :
  wf st ->
  exists st', UnderstandSlices pdq st = Ok tt st' /\
    out st' = (out st ++ slices_output)%list /\ wf st'.
Proof.
  intros Hwf. unfold UnderstandSlices.
  destruct (append_grow_step st nil_slice 3 1 Hwf (slice_ok_nil _))
    as (st1 & R1 & E1 & K1 & O1 & W1); [done | unfold int_max; simpl; lia | reflexivity |].
  rewrite (bind_Ok _ _ _ _ _ R1). cbn [sl_len nil_slice] in *. simpl Z.add in *.
  destruct (append_grow_step st1 _ 1 2 W1 K1)
    as (st2 & R2 & E2 & K2 & O2 & W2); [done | unfold int_max; simpl; lia | reflexivity |].
  rewrite (bind_Ok _ _ _ _ _ R2). cbn [sl_len] in *. simpl Z.add in *.
  destruct (append_grow_step st2 _ 2 4 W2 K2)
    as (st3 & R3 & E3 & K3 & O3 & W3); [done | unfold int_max; simpl; lia | reflexivity |].
  rewrite (bind_Ok _ _ _ _ _ R3). cbn [sl_len] in *. simpl Z.add in *.
  rewrite E1 in E2. rewrite E2 in E3. rewrite elems_nil in E3. simpl in E3.
  rewrite bind_slice_val, E3. cbv beta. unfold log_Println. rewrite bind_emit.
  state_wf W3 W4.
  destruct (sort_Slice_run pdq _ _ W4 K3)
    as (st5 & R5 & E5 & _ & _ & W5 & K5 & O5); [unfold maxInsertion; simpl; lia|].
  rewrite (bind_Ok _ _ _ _ _ R5). cbn [heap out] in E5, O5. rewrite E3 in E5.
  assert (Hm : merge_sort Z.le [3; 1; 2] = [1; 2; 3]) by (vm_compute; reflexivity).
  rewrite Hm in E5.
  rewrite bind_slice_val, E5, bind_emit, bind_slice_val, elems_nil, bind_emit.
  state_wf W5 W6.
  destruct (slice_lit_run [5; 3; 2; 4; 1] _ W6)
    as (st7 & R7 & E7 & K7 & _ & O7 & W7); [unfold int_max; simpl; lia|].
  rewrite (bind_Ok _ _ _ _ _ R7). cbn [heap next out length Z.of_nat] in *.
  change (Z.of_nat 5) with 5 in *. rewrite bind_slice_val, E7, bind_emit.
  with_state ltac:(fun S => destruct (reslice_take_drop (mkSlice (next st5) 5 5) 0 2 S)
    as (s1 & R8 & _ & E8); [lia | simpl; lia | unfold int_max; simpl; lia | simpl; lia |]).
  rewrite (bind_Ok _ _ _ _ _ R8), bind_slice_val. cbn [heap] in E8 |- *. rewrite E8, E7, bind_emit.
  cbn [heap next out].
  with_state ltac:(fun S => destruct (reslice_take_drop (mkSlice (next st5) 5 5) 1 3 S)
    as (s2 & R9 & _ & E9); [lia | simpl; lia | unfold int_max; simpl; lia | simpl; lia |]).
  rewrite (bind_Ok _ _ _ _ _ R9), bind_slice_val. cbn [heap] in E9 |- *. rewrite E9, E7.
  eexists; split; [reflexivity|]. split; [|exact W7].
  cbn [out]. rewrite O7, O5, O3, O2, O1. rewrite <- !app_assoc. reflexivity.
Qed.

(** C2: from any well-formed state, [UnderstandSlices] returns normally
    and logs exactly the six lines of slices.go: [[3 1 2]] after the
    appends, [[1 2 3]] after [sort.Slice], [[]] for the nil slice, the
    literal [[5 3 2 4 1]], and its re-slicings [[5 3]] and [[3 2]]; the
    final state is well formed. *)
Theorem UnderstandSlices_spec pdq st :
  wf st ->
  exists st', UnderstandSlices pdq st = Ok tt st' /\
    out st' = (out st ++ slices_output)%list /\ wf st'.
Proof. apply UnderstandSlices_run. Qed.

Lemma UnderstandSlices_spec_witness :
  wf initial_state /\
  exists st', UnderstandSlices (fun _ _ _ _ => ret tt) initial_state = Ok tt st' /\
    out st' = (out initial_state ++ slices_output)%list /\ wf st'.
Proof.
  split; [exact initial_state_wf|].
  apply UnderstandSlices_spec. exact initial_state_wf.
Defined.
