(* ===== verification/Types.v ===== *)
(** * Types: the struct [User] of src/basics/types.go and its field tags

    [User] has five fields, each with a raw-string tag.  The tags are read
    by reflection: [reflect.StructTag.Lookup] (Go's reflect/type.go) scans
    [key:"value"] pairs separated by spaces and unquotes the value with
    [strconv.Unquote]; [encoding/json] splits the value with [parseTag]
    at the first comma and tests options with [tagOptions.Contains].  All
    three are written out below as Go does them, on the tag's bytes.

    Theorems: [StructTag_Lookup] needs no more iterations than the tag has
    bytes; on a tag printed from well-formed pairs it returns the first
    value of the key (the round trip); on every tag of the malformed shape
    of types.go lines 8-9 (a missing quote lets the [json] value swallow
    [,bson:] and leaves the [bson] key unparsable) it returns the [json]
    value and no other key.  [User_tags_examples] evaluates what
    [encoding/json] ([typeFields]: [Get], ["-"], [isValidTag],
    [parseTag], [omitempty]) reads from the five tags. *)

From S2P Require Import Prelude GoFmt.

Local Open Scope string_scope.
Local Open Scope Z_scope.

(** ** The struct *)

(** [time.Time]: its three words; only the zero value occurs. *)
Record Time := mkTime { t_wall : Z; t_ext : Z; t_loc : Z }.
Definition zero_Time : Time := mkTime 0 0 0.

(** types.go lines 7-12. *)
Record User := mkUser {
  FirstName : string;
  LastName : string;
  PhoneNumber : string;
  Age : Z;
  BirthDate : Time }.

(** The double-quote byte (34) and the backslash (92). *)
Definition quote : ascii := "034"%char.
Definition backslash : ascii := "092"%char.

(** The tags of types.go lines 8-12, byte for byte, with the field names. *)
Definition User_tags : list (string * string) :=
  [ ("FirstName", "json:" ++ String quote ("firstName,bson:" ++ String quote ("name" ++ String quote "")));
    ("LastName", "json:" ++ String quote ("lastName,omitempty,bson:" ++ String quote
                   ("name,omitempty" ++ String quote "")));
    ("PhoneNumber", "json:" ++ String quote ("phoneNumber" ++ String quote ""));
    ("Age", "json:" ++ String quote ("age,omitempty" ++ String quote ""));
    ("BirthDate", "json:" ++ String quote ("birthDate" ++ String quote "")) ].

(** ** reflect.StructTag.Lookup *)

(** The bytes a key may hold: [tag[i] > ' ' && tag[i] != ':' &&
    tag[i] != quote && tag[i] != 0x7f]. *)
Definition is_name_char (c : ascii) : bool :=
  (32 <? nat_of_ascii c)%nat && negb (Ascii.eqb c ":") && negb (Ascii.eqb c quote) &&
  negb (nat_of_ascii c =? 127)%nat.

(** [for i < len(tag) && tag[i] == ' ' { i++ }; tag = tag[i:]] *)
Fixpoint skip_spaces (s : string) : string :=
  match s with
  | EmptyString => EmptyString
  | String c s' => if Ascii.eqb c " " then skip_spaces s' else s
  end.

(** The key: the longest prefix of name bytes, and what follows it. *)
Fixpoint scan_name (s : string) : string * string :=
  match s with
  | EmptyString => (EmptyString, EmptyString)
  | String c s' =>
      if is_name_char c then let '(n, r) := scan_name s' in (String c n, r)
      else (EmptyString, s)
  end.

(** The quoted value after its opening quote: [for i < len(tag) &&
    tag[i] != quote { if tag[i] == backslash { i++ }; i++ }]; [None] when the
    closing quote is missing ([i >= len(tag)]).  Returns the bytes between
    the quotes, escapes kept, and the rest of the tag. *)
Fixpoint scan_quoted (s : string) : option (string * string) :=
  match s with
  | EmptyString => None
  | String c s' =>
      if Ascii.eqb c quote then Some (EmptyString, s')
      else if Ascii.eqb c backslash then
        match s' with
        | EmptyString => None
        | String c2 s'' =>
            match scan_quoted s'' with
            | Some (v, r) => Some (String c (String c2 v), r)
            | None => None
            end
        end
      else
        match scan_quoted s' with
        | Some (v, r) => Some (String c v, r)
        | None => None
        end
  end.

(** The one-character escapes of [strconv.UnquoteChar] in a double-quoted
    string. *)
Definition simple_escape (e : ascii) : option ascii :=
  if Ascii.eqb e "a" then Some "007"%char
  else if Ascii.eqb e "b" then Some "008"%char
  else if Ascii.eqb e "f" then Some "012"%char
  else if Ascii.eqb e "n" then Some "010"%char
  else if Ascii.eqb e "r" then Some "013"%char
  else if Ascii.eqb e "t" then Some "009"%char
  else if Ascii.eqb e "v" then Some "011"%char
  else if Ascii.eqb e backslash then Some backslash
  else if Ascii.eqb e quote then Some quote
  else None.

(** [strconv.Unquote] of [raw] between quotes: a newline is an error, escapes are
    decoded.  (The numeric escapes [\x], [\u], [\U] and octal are not
    modelled and give [None].) *)
Fixpoint unquote_body (s : string) : option string :=
  match s with
  | EmptyString => Some EmptyString
  | String c s' =>
      if Ascii.eqb c "010" then None
      else if Ascii.eqb c backslash then
        match s' with
        | EmptyString => None
        | String e s'' =>
            match simple_escape e, unquote_body s'' with
            | Some c', Some v => Some (String c' v)
            | _, _ => None
            end
        end
      else option_map (String c) (unquote_body s')
  end.

(** One iteration of [for tag != ""] per unit of fuel; [None] is Go's
    [("", false)] from every [break] and from the loop's end. *)
Fixpoint lookup_loop (fuel : nat) (tag key : string) : option string :=
  match fuel with
  | O => None
  | S f =>
      match skip_spaces tag with
      | EmptyString => None
      | tag1 =>
          match scan_name tag1 with
          | (EmptyString, _) => None
          | (name, String c1 (String c2 body)) =>
              if Ascii.eqb c1 ":" && Ascii.eqb c2 quote then
                match scan_quoted body with
                | None => None
                | Some (raw, tag') =>
                    if String.eqb key name then unquote_body raw else lookup_loop f tag' key
                end
              else None
          | _ => None
          end
      end
  end.

(** [StructTag.Lookup(key)]: one more iteration than the tag has bytes,
    which [lookup_loop_fuel] shows is enough. *)
Definition StructTag_Lookup (tag key : string) : option string :=
  lookup_loop (S (String.length tag)) tag key.

(** ** encoding/json's tag options *)

(** [strings.Cut(s, ",")]: before, after, found. *)
Fixpoint cut_comma (s : string) : string * string * bool :=
  match s with
  | EmptyString => (EmptyString, EmptyString, false)
  | String c s' =>
      if Ascii.eqb c "," then (EmptyString, s', true)
      else let '(b, a, f) := cut_comma s' in (String c b, a, f)
  end.

(** [parseTag]: the name and the options. *)
Definition parseTag (tag : string) : string * string :=
  let '(b, a, _) := cut_comma tag in (b, a).

(** [tagOptions.Contains]: [for s != "" { name, s, _ = strings.Cut(s, ",");
    if name == optionName { return true } }]. *)
Fixpoint contains_loop (fuel : nat) (s optionName : string) : bool :=
  match fuel with
  | O => false
  | S f =>
      match s with
      | EmptyString => false
      | _ => let '(name, rest, _) := cut_comma s in
             if String.eqb name optionName then true else contains_loop f rest optionName
      end
  end.

Definition tagOptions_Contains (o optionName : string) : bool :=
  contains_loop (S (String.length o)) o optionName.

(** The punctuation [isValidTag] accepts besides letters and digits. *)
Definition json_tag_punct : string := "!#$%&()*+-./:;<=>?@[]^_{|}~ ".

(** [unicode.IsLetter] and [unicode.IsDigit] on ASCII bytes. *)
Definition is_letter (c : ascii) : bool :=
  let n := nat_of_ascii c in ((65 <=? n) && (n <=? 90) || (97 <=? n) && (n <=? 122))%nat.
Definition is_digit (c : ascii) : bool :=
  let n := nat_of_ascii c in ((48 <=? n) && (n <=? 57))%nat.

(** [isValidTag] of encoding/json on ASCII names: non-empty, of letters,
    digits and [json_tag_punct]. *)
Definition isValidTag (s : string) : bool :=
  negb (String.eqb s "") &&
  forallb (fun c => is_letter c || is_digit c || existsb (Ascii.eqb c) (list_ascii_of_string json_tag_punct))
    (list_ascii_of_string s).

(** What [typeFields] of encoding/json makes of a field's tag:
    [tag := sf.Tag.Get("json")]; [None] for ["-"] (the field is skipped);
    otherwise the name, [""] (the field's own name is used) when it is not
    a valid tag, and whether [omitempty] is among the options. *)
Definition json_field (tag : string) : option (string * bool) :=
  let v := default "" (StructTag_Lookup tag "json") in
  if String.eqb v "-" then None
  else let '(name, opts) := parseTag v in
       Some (if isValidTag name then name else "", tagOptions_Contains opts "omitempty").

(** ** Tags printed from pairs, for the round trip *)

(** [key:"value"]. *)
Definition render_pair (kv : string * string) : string :=
  kv.1 ++ ":" ++ String quote (kv.2 ++ String quote "").

(** The conventional form: pairs separated by one space. *)
Definition render_tag (kvs : list (string * string)) : string :=
  String.concat " " (map render_pair kvs).

(** The first value of [key]. *)
Fixpoint tag_assoc (key : string) (kvs : list (string * string)) : option string :=
  match kvs with
  | [] => None
  | (k, v) :: kvs' => if String.eqb key k then Some v else tag_assoc key kvs'
  end.

(** A key Go accepts: non-empty, of name bytes. *)
Definition key_ok (k : string) : bool :=
  negb (String.eqb k "") && forallb is_name_char (list_ascii_of_string k).

(** A value that needs no escape: no quote, backslash or newline. *)
Definition val_ok (v : string) : bool :=
  forallb (fun c => negb (Ascii.eqb c quote || Ascii.eqb c backslash || Ascii.eqb c "010"))
    (list_ascii_of_string v).

Definition pair_ok (kv : string * string) : bool := key_ok kv.1 && val_ok kv.2.

(** ** Lemmas *)

Lemma length_skip_spaces s : (String.length (skip_spaces s) <= String.length s)%nat.
Proof. induction s as [|c s IH]; simpl; [lia|]. destruct (Ascii.eqb c " "); simpl; lia. Qed.

Lemma scan_name_split s n r : scan_name s = (n, r) -> s = n ++ r.
Proof.
  revert n r. induction s as [|c s IH]; intros n r H; simpl in H; [by simplify_eq|].
  destruct (is_name_char c); [|by simplify_eq].
  destruct (scan_name s) as [n' r'] eqn:E. simplify_eq.
  exact (f_equal (String c) (IH _ _ eq_refl)).
Qed.

Lemma scan_quoted_shorter s v r :
  scan_quoted s = Some (v, r) -> (String.length r < String.length s)%nat.
Proof.
  revert v r. induction s as [s IH] using (induction_ltof1 _ String.length); intros v r H.
  destruct s as [|c s]; [done|]. simpl in H.
  destruct (Ascii.eqb c quote); [simplify_eq; simpl; lia|].
  destruct (Ascii.eqb c backslash).
  - destruct s as [|c2 s]; [done|].
    destruct (scan_quoted s) as [[v' r']|] eqn:E; [|done]. simplify_eq.
    pose proof (IH s ltac:(unfold ltof; simpl; lia) _ _ E). simpl. lia.
  - destruct (scan_quoted s) as [[v' r']|] eqn:E; [|done]. simplify_eq.
    pose proof (IH s ltac:(unfold ltof; simpl; lia) _ _ E). simpl. lia.
Qed.

Lemma length_string_app s1 s2 :
  String.length (s1 ++ s2) = (String.length s1 + String.length s2)%nat.
Proof. induction s1 as [|c s1 IH]; simpl; [done|]. by rewrite IH. Qed.

(** Every iteration that does not stop consumes bytes. *)
Lemma lookup_step_shorter tag name c1 c2 body raw tag' :
  scan_name (skip_spaces tag) = (name, String c1 (String c2 body)) ->
  scan_quoted body = Some (raw, tag') ->
  (String.length tag' < String.length tag)%nat.
Proof.
  intros Hn Hq. apply scan_name_split in Hn. pose proof (length_skip_spaces tag).
  pose proof (scan_quoted_shorter _ _ _ Hq).
  rewrite Hn, length_string_app in *. simpl in *. lia.
Qed.

Lemma lookup_loop_fuel_irrel n m tag key :
  (String.length tag < n)%nat -> (String.length tag < m)%nat ->
  lookup_loop n tag key = lookup_loop m tag key.
Proof.
  revert m tag. induction n as [|n IH]; intros m tag Hn Hm; [lia|]. destruct m as [|m]; [lia|].
  cbn [lookup_loop]. destruct (skip_spaces tag) as [|c t] eqn:Es; [done|].
  destruct (scan_name (String c t)) as [[|x name] rest] eqn:En; [done|].
  destruct rest as [|c1 [|c2 body]]; try done.
  destruct (Ascii.eqb c1 ":" && Ascii.eqb c2 quote); [|done].
  destruct (scan_quoted body) as [[raw tag']|] eqn:Eq; [|done].
  destruct (String.eqb key _); [done|].
  rewrite <- Es in En. pose proof (lookup_step_shorter _ _ _ _ _ _ _ En Eq). apply IH; lia.
Qed.

Lemma name_char_not_space c : is_name_char c = true -> Ascii.eqb c " " = false.
Proof. intros H. destruct (Ascii.eqb_spec c " ") as [->|]; [discriminate H | done]. Qed.

Lemma skip_spaces_key k r : key_ok k = true -> skip_spaces (k ++ r) = k ++ r.
Proof.
  destruct k as [|c k]; [done|]. intros H. apply andb_true_iff in H as [_ H].
  simpl in H. apply andb_true_iff in H as [Hc _]. simpl. by rewrite name_char_not_space.
Qed.

(** The key scan stops at the first byte that is not a name byte. *)
Lemma scan_name_app k c r :
  forallb is_name_char (list_ascii_of_string k) = true -> is_name_char c = false ->
  scan_name (k ++ String c r) = (k, String c r).
Proof.
  intros H Hc. induction k as [|c' k IH]; [simpl; by rewrite Hc|].
  simpl in H. apply andb_true_iff in H as [Hc' Hk]. simpl. rewrite Hc', (IH Hk). done.
Qed.

Lemma scan_name_key k r :
  forallb is_name_char (list_ascii_of_string k) = true ->
  scan_name (k ++ String ":" r) = (k, String ":" r).
Proof. intros H. by apply scan_name_app. Qed.

Lemma scan_quoted_val v r :
  val_ok v = true -> scan_quoted (v ++ String quote r) = Some (v, r).
Proof.
  induction v as [|c v IH]; intros H; [reflexivity|].
  unfold val_ok in H. simpl in H. apply andb_true_iff in H as [Hc Hv].
  apply negb_true_iff, orb_false_iff in Hc as [[Hq Hb]%orb_false_iff _]. simpl.
  rewrite Hq, Hb, (IH Hv). done.
Qed.

Lemma unquote_val v : val_ok v = true -> unquote_body v = Some v.
Proof.
  induction v as [|c v IH]; intros H; [reflexivity|].
  unfold val_ok in H. simpl in H. apply andb_true_iff in H as [Hc Hv].
  apply negb_true_iff, orb_false_iff in Hc as [[_ Hb]%orb_false_iff Hn]. simpl.
  rewrite Hn, Hb, (IH Hv). done.
Qed.

Lemma lookup_loop_space f X key : lookup_loop f (" " ++ X) key = lookup_loop f X key.
Proof. by destruct f. Qed.

Lemma render_pair_app k v rest :
  render_pair (k, v) ++ rest = k ++ String ":" (String quote (v ++ String quote rest)).
Proof.
  unfold render_pair; cbn [fst snd]. rewrite string_app_assoc. f_equal.
  change (String ":" (String quote ((v ++ String quote "") ++ rest)) =
          String ":" (String quote (v ++ String quote rest))).
  by rewrite string_app_assoc.
Qed.

(** One well-formed pair: a match returns its value, otherwise the loop
    goes on with what follows. *)
Lemma lookup_loop_pair f k v rest key :
  pair_ok (k, v) = true ->
  lookup_loop (S f) (render_pair (k, v) ++ rest) key =
  if String.eqb key k then Some v else lookup_loop f rest key.
Proof.
  intros H. apply andb_true_iff in H as [Hk Hv]; cbn [fst snd] in *.
  rewrite render_pair_app. cbn [lookup_loop]. rewrite skip_spaces_key by done.
  pose proof Hk as Hk'. apply andb_true_iff in Hk' as [Hne Hchars].
  destruct (k ++ String ":" (String quote (v ++ String quote rest))) as [|a s] eqn:E.
  { destruct k; discriminate. }
  rewrite <- E, (scan_name_key k _ Hchars).
  destruct k as [|c k]; [done|]. rewrite !Ascii.eqb_refl, (scan_quoted_val _ _ Hv). cbn [andb].
  destruct (String.eqb key (String c k)); [|done]. by apply unquote_val.
Qed.

Lemma lookup_loop_render f key kvs :
  forallb pair_ok kvs = true -> (length kvs <= f)%nat ->
  lookup_loop f (render_tag kvs) key = tag_assoc key kvs.
Proof.
  revert f. induction kvs as [|[k v] kvs IH]; intros f Hok Hf; [by destruct f|].
  apply andb_true_iff in Hok as [Hp Hok]. destruct f as [|f]; [simpl in Hf; lia|].
  unfold render_tag. destruct kvs as [|kv' kvs']; cbn [map String.concat tag_assoc].
  - rewrite <- (string_app_nil_r (render_pair (k, v))), lookup_loop_pair by done.
    by destruct (String.eqb key k), f.
  - rewrite lookup_loop_pair by done. destruct (String.eqb key k); [done|].
    rewrite lookup_loop_space. apply IH; [done | simpl in *; lia].
Qed.

(** What follows an unclosed value, name bytes and a lone quote, ends the
    loop without a match. *)
Lemma lookup_loop_unclosed_rest f b key :
  forallb is_name_char (list_ascii_of_string b) = true ->
  lookup_loop f (b ++ String quote "") key = None.
Proof.
  intros Hb. destruct f as [|f]; [done|]. destruct b as [|c b]; [reflexivity|].
  assert (Hk : key_ok (String c b) = true) by (unfold key_ok; rewrite Hb; done).
  cbn [lookup_loop]. rewrite skip_spaces_key by done.
  destruct (String c b ++ String quote "") as [|a s] eqn:E; [discriminate|].
  rewrite <- E, (scan_name_app _ _ _ Hb) by reflexivity. done.
Qed.

(** ** Theorems *)

(** C18: [StructTag.Lookup]'s loop terminates within as many iterations
    as the tag has bytes: with any fuel above the tag's length the result
    is that of [StructTag_Lookup], so the fuel it is given is enough. *)
Theorem lookup_loop_fuel n tag key :
  (String.length tag < n)%nat -> lookup_loop n tag key = StructTag_Lookup tag key.
Proof. intros Hn. apply lookup_loop_fuel_irrel; lia. Qed.

Lemma lookup_loop_fuel_witness :
  (String.length (render_pair ("json", "x")) < 20)%nat /\
  lookup_loop 20 (render_pair ("json", "x")) "json" = StructTag_Lookup (render_pair ("json", "x")) "json".
Proof.
  assert (H : (String.length (render_pair ("json", "x")) < 20)%nat) by (vm_compute; lia).
  split; [exact H|]. exact (lookup_loop_fuel 20 _ "json" H).
Defined.

(** C17: the lookup round trip.  On a tag printed in the conventional
    form from pairs whose keys are non-empty words of name bytes and whose
    values need no escape, [StructTag.Lookup(key)] returns the value of
    the first pair with that key, and reports absence when there is none. *)
Theorem StructTag_Lookup_render kvs key :
  forallb pair_ok kvs = true ->
  StructTag_Lookup (render_tag kvs) key = tag_assoc key kvs.
Proof.
  intros Hok. rewrite <- (lookup_loop_fuel (length kvs + S (String.length (render_tag kvs)))) by lia.
  apply lookup_loop_render; [done | lia].
Qed.

Lemma StructTag_Lookup_render_witness :
  forallb pair_ok [("json", "firstName"); ("bson", "name,omitempty")] = true /\
  StructTag_Lookup (render_tag [("json", "firstName"); ("bson", "name,omitempty")]) "bson" =
  tag_assoc "bson" [("json", "firstName"); ("bson", "name,omitempty")].
Proof.
  assert (H : forallb pair_ok [("json", "firstName"); ("bson", "name,omitempty")] = true)
    by (vm_compute; reflexivity).
  split; [exact H|]. exact (StructTag_Lookup_render _ "bson" H).
Defined.

(** C16: the tags of types.go lines 8-9 have the shape [j:QvQbQ], with
    [Q] the quote byte: the
    quote meant to close [v] before the [bson] key is missing, so the
    second quote closes the [json] value early and the [bson] key is left
    as bare name bytes followed by a lone quote.  On every tag of that
    shape, [StructTag.Lookup] returns [v] for [j] and reports every other
    key, [bson] included, as absent. *)
Theorem StructTag_Lookup_unclosed j v b key :
  pair_ok (j, v) = true -> forallb is_name_char (list_ascii_of_string b) = true ->
  StructTag_Lookup (render_pair (j, v) ++ b ++ String quote "") key =
  if String.eqb key j then Some v else None.
Proof.
  intros Hp Hb. unfold StructTag_Lookup. rewrite lookup_loop_pair by done.
  destruct (String.eqb key j); [done|]. by apply lookup_loop_unclosed_rest.
Qed.

Lemma StructTag_Lookup_unclosed_witness :
  (pair_ok ("json", "firstName,bson:") = true /\
   forallb is_name_char (list_ascii_of_string "name") = true) /\
  StructTag_Lookup (render_pair ("json", "firstName,bson:") ++ "name" ++ String quote "") "bson" =
  (if String.eqb "bson" "json" then Some "firstName,bson:" else None).
Proof.
  assert (H : pair_ok ("json", "firstName,bson:") = true /\
    forallb is_name_char (list_ascii_of_string "name") = true) by (split; vm_compute; reflexivity).
  split; [exact H|]. exact (StructTag_Lookup_unclosed _ _ _ "bson" (proj1 H) (proj2 H)).
Defined.

(** The tags of types.go as [encoding/json] and a [bson] lookup read them:
    the first two are [StructTag_Lookup_unclosed]'s shape. *)
Example User_tags_examples :
  map (fun kv => json_field kv.2) User_tags =
    [Some ("firstName", false); Some ("lastName", true); Some ("phoneNumber", false);
     Some ("age", true); Some ("birthDate", false)] /\
  take 2 (map snd User_tags) =
    [render_pair ("json", "firstName,bson:") ++ "name" ++ String quote "";
     render_pair ("json", "lastName,omitempty,bson:") ++ "name,omitempty" ++ String quote ""] /\
  Forall (fun kv => StructTag_Lookup kv.2 "bson" = None) User_tags.
Proof. split; [vm_compute; reflexivity|]. split; [reflexivity|]. repeat constructor. Qed.
