(* ===== verification/Main.v ===== *)
(** * Main: src/main.go

    The package variables [globalVariable] and [GlobalVariable],
    [understandVariables] (seven [log.Println] lines), and [main]: it prints
    ["Hello, World!"], calls [understandVariables], the value-returning
    functions of [basics], prints a [User] literal whose other fields keep
    their zero values, runs the demos of [basics] in order, and finally
    starts [concurrency.UnderstandGoroutines] with [go] and returns.

    The functions of [basics] and [concurrency] whose files are not in the
    repository are parameters of the section, with the contract [demo_ok]:
    from a well-formed state they return normally, keep the state well
    formed and only add output.  [UnderstandPointers] and
    [UnderstandSlices] are the models of [Pointers.v] and [SlicesDemo.v].

    The program after the [go] statement is a step relation on
    [prog_state]: the goroutine runs its atomic steps one at a time and
    [main] may return at any point, which ends the process (Go does not
    wait for other goroutines).  Theorems: [main]'s sequential part and
    its output; the states the process can exit in are exactly those after
    a prefix of the goroutine's steps, the empty one included. *)

From S2P Require Import Prelude GoFmt Mem Pointers Growslice Slices SortSlice SlicesDemo Types.

Local Open Scope string_scope.
Local Open Scope Z_scope.
Local Open Scope go_scope.

(** main.go line 13. *)
Definition globalVariable : string := "global".
(** main.go line 16. *)
Definition GlobalVariable : string := "Global".

(** [time.Time.String] of the zero time; other times are not modelled. *)
Definition Time_String (t : Time) : option string :=
  if (t_wall t =? 0) && (t_ext t =? 0) then Some "0001-01-01 00:00:00 +0000 UTC" else None.

(** A demo function of another file: from a well-formed state it returns
    normally, keeps the state well formed and only appends output. *)
Definition demo_ok {A} (m : M A) : Prop :=
  forall st, wf st -> exists a st' o, m st = Ok a st' /\ wf st' /\ out st' = (out st ++ o)%list.

(** Run a goroutine's atomic steps in order. *)
Fixpoint run_all (g : list (M unit)) : M unit :=
  match g with
  | [] => ret tt
  | a :: g' => a ;; run_all g'
  end.

Section Program.
Context (basics_GlobalVariable : string).
Context (UnderstandFunctionReturnSingleValue : M string).
Context (UnderstandFunctionReturnMultipleValues : M (string * Z)).
Context (UnderstandMap UnderstandDecisionStructures UnderstandLoops : M unit).
Context (pdq : lessSwap -> Z -> Z -> Z -> M unit).

(** main.go lines 18-41. *)
Definition understandVariables : M unit :=
  let localVariable := "local" in
  log_Println [GString localVariable; GString "Variable to function inside main package"] ;;
  let name := "" in
  let name := "Ankit" in
  log_Println [GString "My name is"; GString name] ;;
  let id := 10 in
  log_Println [GString "My id is"; GInt id] ;;
  let isSuperHuman := false in
  log_Println [GString "Am I a Super Human?:"; GBool isSuperHuman] ;;
  log_Println [GString globalVariable; GString "Variable from main package"] ;;
  log_Println [GString GlobalVariable; GString "Variable from main package"] ;;
  log_Println [GString basics_GlobalVariable; GString "Variable from basics package"].

(** main.go lines 44-73: everything [main] does before its [go]
    statement. *)
Definition main_seq : M unit :=
  fmt_Println [GString "Hello, World!"] ;;
  understandVariables ;;
  returnedNameValue <- UnderstandFunctionReturnSingleValue ;;
  log_Println [GString "My name is"; GString returnedNameValue] ;;
  r <- UnderstandFunctionReturnMultipleValues ;;
  let '(returnedNameValueAgain, returnedId) := r in
  log_Println [GString "My name is"; GString returnedNameValueAgain;
               GString "and my id is"; GInt returnedId] ;;
  let user := {| FirstName := "Ankit"; LastName := "Jain"; PhoneNumber := "";
                 Age := 0; BirthDate := zero_Time |} in
  log_Println [GString "Type values are:"; GString (FirstName user); GString (LastName user);
               GString (PhoneNumber user); GInt (Age user);
               GString (default "" (Time_String (BirthDate user)))] ;;
  UnderstandPointers ;;
  UnderstandMap ;;
  UnderstandDecisionStructures ;;
  UnderstandSlices pdq ;;
  UnderstandLoops.

End Program.

(** ** The process after [go concurrency.UnderstandGoroutines()] *)

(** [Running g st]: [main] is at its closing brace and the goroutine has
    the steps [g] left; [Exited]: [main] returned and the process ended;
    [Crashed]: a panic that no one recovers ended it. *)
Inductive prog_state :=
  | Running (g : list (M unit)) (st : GoState)
  | Exited (st : GoState)
  | Crashed (e : runtime_error) (st : GoState).

Inductive step : prog_state -> prog_state -> Prop :=
  | step_goroutine a g st st' :
      a st = Ok tt st' -> step (Running (a :: g) st) (Running g st')
  | step_goroutine_panic a g st e st' :
      a st = Panic e st' -> step (Running (a :: g) st) (Crashed e st')
  | step_main_return g st :
      step (Running g st) (Exited st).

(** main.go lines 43-77: the sequential part, then the [go] statement
    (line 75) and the return. *)
Definition program_start (main_seq : M unit) (g : list (M unit)) (st : GoState) : prog_state :=
  match main_seq st with
  | Ok _ st' => Running g st'
  | Panic e st' => Crashed e st'
  end.

(** The seven lines [understandVariables] logs. *)
Definition variables_output (basics_GlobalVariable : string) : list event :=
  map EvLog
    [ "local Variable to function inside main package" ++ nl;
      "My name is Ankit" ++ nl;
      "My id is 10" ++ nl;
      "Am I a Super Human?: false" ++ nl;
      "global Variable from main package" ++ nl;
      "Global Variable from main package" ++ nl;
      basics_GlobalVariable ++ " Variable from basics package" ++ nl ].

(** The line for the [User] literal: the empty [PhoneNumber] leaves two
    spaces, [Age] prints 0 and [BirthDate] the zero time. *)
Definition user_line : event :=
  EvLog ("Type values are: Ankit Jain  0 0001-01-01 00:00:00 +0000 UTC" ++ nl).

(** ** Lemmas *)

Lemma Sprintln_str_str a b : Sprintln [GString a; GString b] = a ++ " " ++ b ++ nl.
Proof. unfold Sprintln. simpl. by rewrite <- !string_app_assoc. Qed.

Lemma demo_ok_bind {A B} (m : M A) (k : A -> M B) st :
  demo_ok m -> wf st ->
  exists a st' o, bind m k st = k a st' /\ wf st' /\ out st' = (out st ++ o)%list.
Proof.
  intros Hm Hwf. destruct (Hm st Hwf) as (a & st' & o & Hrun & Hwf' & Ho).
  exists a, st', o. by rewrite (bind_Ok _ _ _ _ _ Hrun).
Qed.

Lemma run_all_app g1 g2 st :
  run_all (g1 ++ g2) st = bind (run_all g1) (fun _ => run_all g2) st.
Proof.
  revert st. induction g1 as [|a g1 IH]; intros st; [reflexivity|]. cbn [app run_all].
  rewrite bind_assoc. destruct (a st) as [[] s|e s] eqn:E.
  - rewrite !(bind_Ok _ _ _ _ _ E). apply IH.
  - by rewrite !(bind_Panic _ _ _ _ _ E).
Qed.

Lemma understandVariables_run gv st :
  understandVariables gv st =
  Ok tt (mkState (heap st) (next st) (out st ++ variables_output gv)).
Proof.
  unfold understandVariables, log_Println. rewrite !bind_emit. unfold emit. cbn [heap next out].
  rewrite <- !app_assoc, (Sprintln_str_str gv). reflexivity.
Qed.

Lemma rtc_step_Exited s p : rtc step (Exited s) p -> p = Exited s.
Proof. intros H. inversion H as [|x y z Hs]; [done | inversion Hs]. Qed.

Lemma rtc_step_Crashed e s p : rtc step (Crashed e s) p -> p = Crashed e s.
Proof. intros H. inversion H as [|x y z Hs]; [done | inversion Hs]. Qed.

Lemma exit_prefix g st st' :
  rtc step (Running g st) (Exited st') -> exists k, run_all (take k g) st = Ok tt st'.
Proof.
  revert st. induction g as [|a g IH]; intros st H;
    inversion H as [|x y z Hs Hr]; subst; inversion Hs; subst.
  - apply rtc_step_Exited in Hr. simplify_eq. by exists 0%nat.
  - destruct (IH _ Hr) as [k Hk]. exists (S k). cbn [take run_all].
    match goal with Ha : a st = Ok tt _ |- _ => by rewrite (bind_Ok _ _ _ _ _ Ha) end.
  - by apply rtc_step_Crashed in Hr.
  - apply rtc_step_Exited in Hr. simplify_eq. by exists 0%nat.
Qed.

Lemma prefix_exit g st st' k :
  run_all (take k g) st = Ok tt st' -> rtc step (Running g st) (Exited st').
Proof.
  revert g st. induction k as [|k IH]; intros g st H.
  { cbv [take run_all ret] in H. simplify_eq. apply rtc_once, step_main_return. }
  destruct g as [|a g]; [cbv [take run_all ret] in H; simplify_eq; apply rtc_once, step_main_return|].
  cbn [take run_all] in H. destruct (a st) as [[] s|e s] eqn:E.
  - rewrite (bind_Ok _ _ _ _ _ E) in H. eapply rtc_l; [by apply step_goroutine | by apply IH].
  - by rewrite (bind_Panic _ _ _ _ _ E) in H.
Qed.

Lemma demo_ok_ret {A} (x : A) : demo_ok (ret x).
Proof. intros st Hwf. exists x, st, []. by rewrite app_nil_r. Qed.

(** Run the demo [m] the goal binds, by its contract [Hm], from the
    well-formed state [W]. *)
Tactic Notation "demo_step" constr(m) constr(Hm) constr(W) "as" simple_intropattern(p) :=
  lazymatch goal with
  | |- context [bind m ?k ?S] => destruct (demo_ok_bind m k S Hm W) as p
  end.

(** ** Theorems *)

(** C21: [understandVariables] logs its seven lines, the value of
    [basics.GlobalVariable] in the last, and changes nothing else. *)
Theorem understandVariables_spec gv st :
  understandVariables gv st =
  Ok tt (mkState (heap st) (next st) (out st ++ variables_output gv)).
Proof. apply understandVariables_run. Qed.

Section MainSpec.
Context (gv : string) (usv : M string) (umv : M (string * Z)) (umap udec uloops : M unit).
Context (pdq : lessSwap -> Z -> Z -> Z -> M unit).
Hypotheses (Hsv : demo_ok usv) (Hmv : demo_ok umv) (Hmap : demo_ok umap)
  (Hdec : demo_ok udec) (Hloops : demo_ok uloops).

(** C3: when the functions of the files not in the repository meet
    [demo_ok], [main] runs to its [go] statement from any well-formed
    state, and its output is, in order: ["Hello, World!"], the seven lines
    of [understandVariables], the lines of the value-returning functions,
    the [User] line with its zero fields, the seven lines of
    [UnderstandPointers], those of the map and decision demos, the six
    lines of [UnderstandSlices], and those of the loops demo. *)
Theorem main_seq_spec st :
  wf st ->
  exists st', main_seq gv usv umv umap udec uloops pdq st = Ok tt st' /\ wf st' /\
    exists a o1 o2 o3,
      out st' = (out st ++ [EvPrint ("Hello, World!" ++ nl)] ++ variables_output gv ++ o1 ++
                 user_line :: pointers_output a ++ o2 ++ slices_output ++ o3)%list.
Proof.
  intros Hwf. unfold main_seq, fmt_Println. rewrite bind_emit.
  rewrite (bind_Ok _ _ _ _ _ (understandVariables_run gv _)). cbn [heap next out].
  state_wf Hwf W1. demo_step usv Hsv W1 as (n & s2 & o2 & -> & W2 & O2).
  unfold log_Println. rewrite bind_emit. state_wf W2 W2'.
  demo_step umv Hmv W2' as ([n' id] & s3 & o3 & -> & W3 & O3).
  rewrite !bind_emit. state_wf W3 W3'.
  destruct (UnderstandPointers_run _ W3') as (s4 & R4 & _ & O4 & W4). rewrite (bind_Ok _ _ _ _ _ R4).
  demo_step umap Hmap W4 as (u5 & s5 & o5 & -> & W5 & O5).
  demo_step udec Hdec W5 as (u6 & s6 & o6 & -> & W6 & O6).
  destruct (UnderstandSlices_run pdq _ W6) as (s7 & R7 & O7 & W7). rewrite (bind_Ok _ _ _ _ _ R7).
  destruct (Hloops _ W7) as ([] & s8 & o8 & R8 & W8 & O8). rewrite R8.
  eexists; split; [reflexivity|]. split; [done|].
  exists (next s3), (o2 ++ [EvLog (Sprintln [GString "My name is"; GString n])] ++ o3 ++
    [EvLog (Sprintln [GString "My name is"; GString n'; GString "and my id is"; GInt id])])%list,
    (o5 ++ o6)%list, o8.
  rewrite O8, O7, O6, O5, O4. cbn [out]. rewrite O3. cbn [out]. rewrite O2. cbn [out].
  rewrite <- !app_assoc. reflexivity.
Qed.

End MainSpec.

(** C4: the states the process can exit in are exactly those reached by
    running a prefix of the goroutine's steps, from none of them (main
    returns before the goroutine runs at all) to all of them: [main] does
    not wait for the goroutine. *)
Theorem exit_iff_prefix g st st' :
  rtc step (Running g st) (Exited st') <-> exists k, run_all (take k g) st = Ok tt st'.
Proof. split; [apply exit_prefix | intros [k Hk]; by apply (prefix_exit _ _ _ k)]. Qed.

Lemma main_seq_spec_witness :
  (demo_ok (ret "Ankit") /\ demo_ok (ret ("Ankit", 10)) /\ demo_ok (ret tt) /\
   demo_ok (ret tt) /\ demo_ok (ret tt) /\ wf initial_state) /\
  exists st', main_seq "Global" (ret "Ankit") (ret ("Ankit", 10)) (ret tt) (ret tt) (ret tt)
      (fun _ _ _ _ => ret tt) initial_state = Ok tt st' /\ wf st' /\
    exists a o1 o2 o3,
      out st' = (out initial_state ++ [EvPrint ("Hello, World!" ++ nl)] ++
                 variables_output "Global" ++ o1 ++
                 user_line :: pointers_output a ++ o2 ++ slices_output ++ o3)%list.
Proof.
  assert (H : demo_ok (ret "Ankit") /\ demo_ok (ret ("Ankit", 10)) /\ demo_ok (ret tt) /\
    demo_ok (ret tt) /\ demo_ok (ret tt) /\ wf initial_state).
  { exact (conj (demo_ok_ret _) (conj (demo_ok_ret _) (conj (demo_ok_ret _)
      (conj (demo_ok_ret _) (conj (demo_ok_ret _) initial_state_wf))))). }
  split; [exact H|]. destruct H as (H1 & H2 & H3 & H4 & H5 & H6).
  exact (main_seq_spec "Global" _ _ _ _ _ (fun _ _ _ _ => ret tt) H1 H2 H3 H4 H5 initial_state H6).
Defined.

Lemma exit_iff_prefix_witness :
  run_all (take 1 [emit (EvPrint "go")]) initial_state =
    Ok tt (mkState ∅ 1 [EvPrint "go"]) /\
  rtc step (Running [emit (EvPrint "go")] initial_state) (Exited (mkState ∅ 1 [EvPrint "go"])).
Proof.
  assert (H : run_all (take 1 [emit (EvPrint "go")]) initial_state =
    Ok tt (mkState ∅ 1 [EvPrint "go"])) by reflexivity.
  split; [exact H|]. apply (exit_iff_prefix _ _ _). exists 1%nat. exact H.
Defined.
